(** * Advanced Light Group: state reduction and command dispatch

    A shallow embedding of
    [custom_components/advanced_light_group/light.py] together with the
    fragment of the Python runtime that the module relies on, and the
    properties of the reduction engine and of the dispatcher proved on it.

    Layout:
    - a result type for Python exceptions,
    - the dynamic values a state attribute can hold,
    - binary64 arithmetic ([/] on integers, [int()] on floats),
    - the builtins used by the module ([sum], [zip], [min], [max], [set],
      [Counter]),
    - the Home Assistant objects the module reads and writes,
    - the module itself, function by function,
    - the theorems. *)

From Stdlib Require Import ZArith String List Lia Permutation.
From Stdlib Require Import Floats.SpecFloat.
From stdpp Require Import gmap strings list fin_maps.

Local Open Scope string_scope.
Local Open Scope Z_scope.

Set Warnings "-register-all,-clear-no-such-hyp".

(** ** Exceptions *)

(** The exceptions the runtime fragment below can raise. *)
Inductive exn : Set :=
| TypeError
| ZeroDivisionError
| OverflowError
| ValueError
| IndexError.

(** A computation that returns a value or raises. *)
Inductive exc (A : Type) : Type :=
| Ok (a : A)
| Raise (e : exn).
Arguments Ok {A} a.
Arguments Raise {A} e.

#[global] Instance exc_ret : MRet exc := fun _ a => Ok a.
#[global] Instance exc_bind : MBind exc := fun _ _ f m =>
  match m with
  | Ok a => f a
  | Raise e => Raise e
  end.
#[global] Instance exc_fmap : FMap exc := fun _ _ f m =>
  match m with
  | Ok a => Ok (f a)
  | Raise e => Raise e
  end.

(** [for x in l: f x], collecting the results, stopping at the first raise. *)
Fixpoint exc_map {A B : Type} (f : A -> exc B) (l : list A) : exc (list B) :=
  match l with
  | [] => Ok []
  | x :: r => y ← f x; ys ← exc_map f r; Ok (y :: ys)
  end.

(** ** Binary64 floats

    Python floats are IEEE-754 binary64 numbers: [spec_float] at precision
    53 and maximal exponent 1024, rounding to nearest, ties to even. *)

Definition prec : Z := 53.
Definition emax : Z := 1024.

(** Nearest integer to [p/q] ([0 <= p], [0 < q]), ties to even. *)
Definition round_half_even (p q : Z) : Z :=
  let d := p / q in
  match 2 * (p mod q) ?= q with
  | Lt => d
  | Gt => d + 1
  | Eq => if Z.even d then d else d + 1
  end.

(** Numerator and denominator of [p / (q * 2^e)]. *)
Definition scaled_num (p e : Z) : Z := p * 2 ^ Z.max 0 (- e).
Definition scaled_den (q e : Z) : Z := q * 2 ^ Z.max 0 e.

(** The binary64 number nearest to the rational [p/q] ([0 < p], [0 < q]),
    as a mantissa and an exponent: the exponent [e] is the one that puts
    [p / (q * 2^e)] in [[2^52, 2^53)], never below the subnormal exponent
    -1074; the mantissa is that quotient rounded. *)
Definition b64_round (p q : Z) : Z * Z :=
  let e0 := Z.log2 p - Z.log2 q - 52 in
  let e1 := if scaled_num p e0 <? 2 ^ 52 * scaled_den q e0 then e0 - 1 else e0 in
  let e := Z.max e1 (- 1074) in
  let m := round_half_even (scaled_num p e) (scaled_den q e) in
  if m =? 2 ^ 53 then (2 ^ 52, e + 1) else (m, e).

(** The float nearest to [p/q], with sign [s]; [OverflowError] beyond the
    largest finite float. *)
Definition float_of_ratio (s : bool) (p q : Z) : exc spec_float :=
  if p =? 0 then Ok (S754_zero s)
  else
    let '(m, e) := b64_round p q in
    match m with
    | Zpos m' =>
        if e <=? emax - prec then Ok (S754_finite s m' e)
        else Raise OverflowError
    | _ => Ok (S754_zero s)
    end.

(** [a / b] on two Python ints: the correctly rounded quotient. *)
Definition int_truediv (a b : Z) : exc spec_float :=
  if b =? 0 then Raise ZeroDivisionError
  else float_of_ratio (xorb (a <? 0) (b <? 0)) (Z.abs a) (Z.abs b).

(** [float(z)] for a Python int. *)
Definition float_of_int (z : Z) : exc spec_float :=
  float_of_ratio (z <? 0) (Z.abs z) 1.

(** [int(f)] for a Python float: truncation toward zero. *)
Definition int_of_float (f : spec_float) : exc Z :=
  match f with
  | S754_zero _ => Ok 0
  | S754_infinity _ => Raise OverflowError
  | S754_nan => Raise ValueError
  | S754_finite s m e =>
      Ok (cond_Zopp s (if 0 <=? e then Zpos m * 2 ^ e else Zpos m / 2 ^ (- e)))
  end.

Definition float_is_zero (f : spec_float) : bool :=
  match f with
  | S754_zero _ => true
  | _ => false
  end.

Definition float_add : spec_float -> spec_float -> spec_float := SFadd prec emax.
Definition float_div : spec_float -> spec_float -> spec_float := SFdiv prec emax.

(** The exact value of a number, for comparisons across int and float. *)
Inductive num : Set :=
| NNaN
| NInf (neg : bool)
| NFin (m e : Z).

Definition num_of_float (f : spec_float) : num :=
  match f with
  | S754_zero _ => NFin 0 0
  | S754_infinity s => NInf s
  | S754_nan => NNaN
  | S754_finite s m e => NFin (cond_Zopp s (Zpos m)) e
  end.

(** Three-way comparison of exact values; [None] when a NaN is involved. *)
Definition num_compare (x y : num) : option comparison :=
  match x, y with
  | NNaN, _ | _, NNaN => None
  | NInf true, NInf true | NInf false, NInf false => Some Eq
  | NInf true, _ | _, NInf false => Some Lt
  | NInf false, _ | _, NInf true => Some Gt
  | NFin m1 e1, NFin m2 e2 =>
      let e := Z.min e1 e2 in
      Some (m1 * 2 ^ (e1 - e) ?= m2 * 2 ^ (e2 - e))
  end.

(** ** Python values

    The values a state attribute or a service argument can hold.  [str] is
    a sequence of characters with code points below 256; booleans and
    dictionaries are left out. *)
Inductive pyval : Type :=
| VNone
| VInt (z : Z)
| VFloat (f : spec_float)
| VStr (s : string)
| VTuple (l : list pyval)
| VList (l : list pyval).

Definition num_of (v : pyval) : option num :=
  match v with
  | VInt z => Some (NFin z 0)
  | VFloat f => Some (num_of_float f)
  | _ => None
  end.

(** [x == y].  Values are compared by value: two NaN are never equal. *)
Fixpoint py_eqb (x y : pyval) {struct x} : bool :=
  let fix eq_items (l1 l2 : list pyval) {struct l1} : bool :=
    match l1, l2 with
    | [], [] => true
    | a :: r1, b :: r2 => py_eqb a b && eq_items r1 r2
    | _, _ => false
    end in
  match x, y with
  | VNone, VNone => true
  | VStr s, VStr t => bool_decide (s = t)
  | VTuple l1, VTuple l2 => eq_items l1 l2
  | VList l1, VList l2 => eq_items l1 l2
  | (VInt _ | VFloat _), (VInt _ | VFloat _) =>
      match num_of x, num_of y with
      | Some a, Some b =>
          match num_compare a b with Some Eq => true | _ => false end
      | _, _ => false
      end
  | _, _ => false
  end.

(** [x < y]: numbers by value, strings and sequences lexicographically;
    [TypeError] between other types. *)
Fixpoint py_lt (x y : pyval) {struct x} : exc bool :=
  let fix lt_items (l1 l2 : list pyval) {struct l1} : exc bool :=
    match l1, l2 with
    | [], [] => Ok false
    | [], _ :: _ => Ok true
    | _ :: _, [] => Ok false
    | a :: r1, b :: r2 => if py_eqb a b then lt_items r1 r2 else py_lt a b
    end in
  match x, y with
  | VStr s, VStr t => Ok (String.ltb s t)
  | VTuple l1, VTuple l2 => lt_items l1 l2
  | VList l1, VList l2 => lt_items l1 l2
  | (VInt _ | VFloat _), (VInt _ | VFloat _) =>
      match num_of x, num_of y with
      | Some a, Some b =>
          Ok (match num_compare a b with Some Lt => true | _ => false end)
      | _, _ => Raise TypeError
      end
  | _, _ => Raise TypeError
  end.

(** [x > y]. *)
Definition py_gt (x y : pyval) : exc bool := py_lt y x.

(** [x + y]. *)
Definition py_add (x y : pyval) : exc pyval :=
  match x, y with
  | VInt a, VInt b => Ok (VInt (a + b))
  | VInt a, VFloat g => f ← float_of_int a; Ok (VFloat (float_add f g))
  | VFloat f, VInt b => g ← float_of_int b; Ok (VFloat (float_add f g))
  | VFloat f, VFloat g => Ok (VFloat (float_add f g))
  | VStr s, VStr t => Ok (VStr (String.append s t))
  | VTuple l1, VTuple l2 => Ok (VTuple (l1 ++ l2)%list)
  | VList l1, VList l2 => Ok (VList (l1 ++ l2)%list)
  | _, _ => Raise TypeError
  end.

(** [x / y]: the quotient of two numbers is always a float. *)
Definition py_truediv (x y : pyval) : exc spec_float :=
  match x, y with
  | VInt a, VInt b => int_truediv a b
  | VFloat f, VInt b =>
      if b =? 0 then Raise ZeroDivisionError
      else g ← float_of_int b; Ok (float_div f g)
  | VInt a, VFloat g =>
      f ← float_of_int a;
      if float_is_zero g then Raise ZeroDivisionError else Ok (float_div f g)
  | VFloat f, VFloat g =>
      if float_is_zero g then Raise ZeroDivisionError else Ok (float_div f g)
  | _, _ => Raise TypeError
  end.

(** [x | y] and [x & y]. *)
Definition py_or (x y : pyval) : exc pyval :=
  match x, y with
  | VInt a, VInt b => Ok (VInt (Z.lor a b))
  | _, _ => Raise TypeError
  end.

Definition py_and (x y : pyval) : exc pyval :=
  match x, y with
  | VInt a, VInt b => Ok (VInt (Z.land a b))
  | _, _ => Raise TypeError
  end.

(** [sum(l)]: left-to-right addition starting from the int 0. *)
Fixpoint py_sum_from (acc : pyval) (l : list pyval) : exc pyval :=
  match l with
  | [] => Ok acc
  | x :: r => acc' ← py_add acc x; py_sum_from acc' r
  end.

Definition py_sum (l : list pyval) : exc pyval := py_sum_from (VInt 0) l.

(** [len(l)] of a Python sequence held as a list. *)
Definition py_len (l : list pyval) : pyval := VInt (Z.of_nat (length l)).

(** The characters of a string, each a string of length one. *)
Fixpoint chars (s : string) : list pyval :=
  match s with
  | EmptyString => []
  | String c r => VStr (String c EmptyString) :: chars r
  end.

(** [iter(v)], run to the end. *)
Definition py_iter (v : pyval) : exc (list pyval) :=
  match v with
  | VTuple l | VList l => Ok l
  | VStr s => Ok (chars s)
  | _ => Raise TypeError
  end.

(** The first items and the remainders of a list of sequences, provided none
    is exhausted. *)
Fixpoint heads (its : list (list pyval)) : option (list pyval * list (list pyval)) :=
  match its with
  | [] => Some ([], [])
  | [] :: _ => None
  | (x :: r) :: its' =>
      match heads its' with
      | Some (hs, tls) => Some (x :: hs, r :: tls)
      | None => None
      end
  end.

Fixpoint zip_lists (first : list pyval) (others : list (list pyval)) : list (list pyval) :=
  match first with
  | [] => []
  | x :: first' =>
      match heads others with
      | Some (hs, tls) => (x :: hs) :: zip_lists first' tls
      | None => []
      end
  end.

(** [zip] applied to the unpacked arguments: every argument is iterated; the columns stop with the
    shortest argument. *)
Definition py_zip (args : list pyval) : exc (list (list pyval)) :=
  its ← exc_map py_iter args;
  match its with
  | [] => Ok []
  | first :: others => Ok (zip_lists first others)
  end.

(** [min] and [max] on unpacked arguments: with one argument the argument is
    iterated; the first of several extremal items wins. *)
Fixpoint py_min_from (best : pyval) (l : list pyval) : exc pyval :=
  match l with
  | [] => Ok best
  | x :: r => b ← py_lt x best; py_min_from (if b : bool then x else best) r
  end.

Fixpoint py_max_from (best : pyval) (l : list pyval) : exc pyval :=
  match l with
  | [] => Ok best
  | x :: r => b ← py_gt x best; py_max_from (if b : bool then x else best) r
  end.

Definition py_extremum (from : pyval -> list pyval -> exc pyval)
    (args : list pyval) : exc pyval :=
  match args with
  | [] => Raise TypeError
  | [v] =>
      items ← py_iter v;
      match items with
      | [] => Raise ValueError
      | x :: r => from x r
      end
  | x :: r => from x r
  end.

Definition py_min : list pyval -> exc pyval := py_extremum py_min_from.
Definition py_max : list pyval -> exc pyval := py_extremum py_max_from.

(** [hash(v)] succeeds: lists are unhashable, tuples are when their items
    are. *)
Fixpoint py_hashable (v : pyval) : bool :=
  match v with
  | VList _ => false
  | VTuple l => forallb py_hashable l
  | _ => true
  end.

(** A Python [set], held as its members without repetition. *)
Definition set_add (s : list pyval) (x : pyval) : exc (list pyval) :=
  if py_hashable x then
    Ok (if existsb (py_eqb x) s then s else (s ++ [x])%list)
  else Raise TypeError.

Fixpoint set_update (s : list pyval) (items : list pyval) : exc (list pyval) :=
  match items with
  | [] => Ok s
  | x :: r => s' ← set_add s x; set_update s' r
  end.

(** [s.union] on the unpacked [others]. *)
Fixpoint set_union (s : list pyval) (others : list pyval) : exc (list pyval) :=
  match others with
  | [] => Ok s
  | it :: r => items ← py_iter it; s' ← set_update s items; set_union s' r
  end.

(** A [collections.Counter]: a dict from items to counts, in insertion
    order. *)
Fixpoint counter_incr (c : list (pyval * nat)) (x : pyval) : list (pyval * nat) :=
  match c with
  | [] => [(x, 1%nat)]
  | (k, n) :: r =>
      if py_eqb k x then (k, S n) :: r else (k, n) :: counter_incr r x
  end.

Fixpoint counter_update (c : list (pyval * nat)) (items : list pyval)
    : exc (list (pyval * nat)) :=
  match items with
  | [] => Ok c
  | x :: r =>
      if py_hashable x then counter_update (counter_incr c x) r
      else Raise TypeError
  end.

Definition Counter (items : list pyval) : exc (list (pyval * nat)) :=
  counter_update [] items.

(** [max(items, key=count)]: the first entry with the largest count. *)
Fixpoint max_count_from (best : pyval * nat) (c : list (pyval * nat)) : pyval * nat :=
  match c with
  | [] => best
  | kn :: r => max_count_from (if (snd best <? snd kn)%nat then kn else best) r
  end.

(** [c.most_common(1)]. *)
Definition most_common_1 (c : list (pyval * nat)) : list (pyval * nat) :=
  match c with
  | [] => []
  | kn :: r => [max_count_from kn r]
  end.

(** ** Home Assistant objects *)

(** Constants of [homeassistant.const] and [homeassistant.components.light]. *)
Definition STATE_ON : string := "on".
Definition STATE_UNAVAILABLE : string := "unavailable".
Definition ATTR_ENTITY_ID : string := "entity_id".
Definition ATTR_SUPPORTED_FEATURES : string := "supported_features".
Definition ATTR_BRIGHTNESS : string := "brightness".
Definition ATTR_HS_COLOR : string := "hs_color".
Definition ATTR_WHITE_VALUE : string := "white_value".
Definition ATTR_COLOR_TEMP : string := "color_temp".
Definition ATTR_MIN_MIREDS : string := "min_mireds".
Definition ATTR_MAX_MIREDS : string := "max_mireds".
Definition ATTR_EFFECT_LIST : string := "effect_list".
Definition ATTR_EFFECT : string := "effect".
Definition ATTR_FLASH : string := "flash".
Definition ATTR_TRANSITION : string := "transition".
Definition light_DOMAIN : string := "light".
Definition light_SERVICE_TURN_ON : string := "turn_on".
Definition light_SERVICE_TURN_OFF : string := "turn_off".

(** [homeassistant.core.State]: the last reported state of one entity. *)
Record State : Type := {
  entity_id : string;
  state : string;
  attributes : gmap string pyval
}.

(** One call of [hass.services.async_call]. *)
Record ServiceCall : Type := {
  domain : string;
  service : string;
  service_data : gmap string pyval;
  blocking : bool
}.

(** The part of [hass] the group uses: the state machine, read through
    [hass.states.get], and the service calls issued so far. *)
Record HomeAssistant : Type := {
  states : gmap string State;
  service_calls : list ServiceCall
}.

Definition hass_states_get (hass : HomeAssistant) (x : string) : option State :=
  states hass !! x.

Definition hass_services_async_call (hass : HomeAssistant)
    (dom srv : string) (data : gmap string pyval) (blk : bool) : HomeAssistant :=
  {| states := states hass;
     service_calls :=
       (service_calls hass ++
        [{| domain := dom; service := srv; service_data := data; blocking := blk |}])%list |}.

(** The state machine files every state under its own entity id. *)
Definition states_keyed (hass : HomeAssistant) : Prop :=
  ∀ x st, states hass !! x = Some st → entity_id st = x.

(** [attributes.get(key)], where a missing key reads as [None]. *)
Definition attributes_get (st : State) (key : string) : pyval :=
  default VNone (attributes st !! key).

(** A list of entity ids as a Python value. *)
Definition entity_list (ids : list string) : pyval := VList (VStr <$> ids).

(** ** The module *)

(** [_find_state_attributes]: the values of [key] over [states], skipping
    the states where it is [None]. *)
Definition _find_state_attributes (sts : list State) (key : string) : list pyval :=
  omap (fun st =>
          match attributes_get st key with
          | VNone => None
          | value => Some value
          end) sts.

(** [_mean_int]. *)
Definition _mean_int (args : list pyval) : exc pyval :=
  s ← py_sum args;
  q ← py_truediv s (py_len args);
  z ← int_of_float q;
  Ok (VInt z).

(** [sum(l) / len(l)] for one column. *)
Definition column_mean (l : list pyval) : exc pyval :=
  s ← py_sum l;
  q ← py_truediv s (py_len l);
  Ok (VFloat q).

(** [_mean_tuple]. *)
Definition _mean_tuple (args : list pyval) : exc pyval :=
  cols ← py_zip args;
  ms ← exc_map column_mean cols;
  Ok (VTuple ms).

(** [_reduce_attribute]. *)
Definition _reduce_attribute (sts : list State) (key : string)
    (default : pyval) (reduce : list pyval -> exc pyval) : exc pyval :=
  let attrs := _find_state_attributes sts key in
  match attrs with
  | [] => Ok default
  | [v] => Ok v
  | _ => reduce attrs
  end.

(** The group entity: the fields set by [__init__]. *)
Record AdvancedLightGroup : Type := {
  _name : string;
  _main_lights : list string;
  _aux_lights : list string;
  _entity_ids : list string;
  _is_on : bool;
  _main_lights_on : bool;
  _available : bool;
  _brightness : pyval;
  _hs_color : pyval;
  _color_temp : pyval;
  _min_mireds : pyval;
  _max_mireds : pyval;
  _white_value : pyval;
  _effect_list : pyval;
  _effect : pyval;
  _supported_features : pyval
}.

(** [AdvancedLightGroup.__init__]. *)
Definition __init__ (name : string) (main_lights aux_lights : list string)
    : AdvancedLightGroup :=
  {| _name := name;
     _main_lights := main_lights;
     _aux_lights := aux_lights;
     _entity_ids := (main_lights ++ aux_lights)%list;
     _is_on := false;
     _main_lights_on := false;
     _available := false;
     _brightness := VNone;
     _hs_color := VNone;
     _color_temp := VNone;
     _min_mireds := VInt 154;
     _max_mireds := VInt 500;
     _white_value := VNone;
     _effect_list := VNone;
     _effect := VNone;
     _supported_features := VInt 0 |}.

(** Assignments to the fields [async_update] writes. *)
Definition set_is_on (v : bool) (self : AdvancedLightGroup) : AdvancedLightGroup :=
  {| _name := _name self;
     _main_lights := _main_lights self;
     _aux_lights := _aux_lights self;
     _entity_ids := _entity_ids self;
     _is_on := v;
     _main_lights_on := _main_lights_on self;
     _available := _available self;
     _brightness := _brightness self;
     _hs_color := _hs_color self;
     _color_temp := _color_temp self;
     _min_mireds := _min_mireds self;
     _max_mireds := _max_mireds self;
     _white_value := _white_value self;
     _effect_list := _effect_list self;
     _effect := _effect self;
     _supported_features := _supported_features self |}.

Definition set_main_lights_on (v : bool) (self : AdvancedLightGroup) : AdvancedLightGroup :=
  {| _name := _name self;
     _main_lights := _main_lights self;
     _aux_lights := _aux_lights self;
     _entity_ids := _entity_ids self;
     _is_on := _is_on self;
     _main_lights_on := v;
     _available := _available self;
     _brightness := _brightness self;
     _hs_color := _hs_color self;
     _color_temp := _color_temp self;
     _min_mireds := _min_mireds self;
     _max_mireds := _max_mireds self;
     _white_value := _white_value self;
     _effect_list := _effect_list self;
     _effect := _effect self;
     _supported_features := _supported_features self |}.

Definition set_available (v : bool) (self : AdvancedLightGroup) : AdvancedLightGroup :=
  {| _name := _name self;
     _main_lights := _main_lights self;
     _aux_lights := _aux_lights self;
     _entity_ids := _entity_ids self;
     _is_on := _is_on self;
     _main_lights_on := _main_lights_on self;
     _available := v;
     _brightness := _brightness self;
     _hs_color := _hs_color self;
     _color_temp := _color_temp self;
     _min_mireds := _min_mireds self;
     _max_mireds := _max_mireds self;
     _white_value := _white_value self;
     _effect_list := _effect_list self;
     _effect := _effect self;
     _supported_features := _supported_features self |}.

Definition set_brightness (v : pyval) (self : AdvancedLightGroup) : AdvancedLightGroup :=
  {| _name := _name self;
     _main_lights := _main_lights self;
     _aux_lights := _aux_lights self;
     _entity_ids := _entity_ids self;
     _is_on := _is_on self;
     _main_lights_on := _main_lights_on self;
     _available := _available self;
     _brightness := v;
     _hs_color := _hs_color self;
     _color_temp := _color_temp self;
     _min_mireds := _min_mireds self;
     _max_mireds := _max_mireds self;
     _white_value := _white_value self;
     _effect_list := _effect_list self;
     _effect := _effect self;
     _supported_features := _supported_features self |}.

Definition set_hs_color (v : pyval) (self : AdvancedLightGroup) : AdvancedLightGroup :=
  {| _name := _name self;
     _main_lights := _main_lights self;
     _aux_lights := _aux_lights self;
     _entity_ids := _entity_ids self;
     _is_on := _is_on self;
     _main_lights_on := _main_lights_on self;
     _available := _available self;
     _brightness := _brightness self;
     _hs_color := v;
     _color_temp := _color_temp self;
     _min_mireds := _min_mireds self;
     _max_mireds := _max_mireds self;
     _white_value := _white_value self;
     _effect_list := _effect_list self;
     _effect := _effect self;
     _supported_features := _supported_features self |}.

Definition set_color_temp (v : pyval) (self : AdvancedLightGroup) : AdvancedLightGroup :=
  {| _name := _name self;
     _main_lights := _main_lights self;
     _aux_lights := _aux_lights self;
     _entity_ids := _entity_ids self;
     _is_on := _is_on self;
     _main_lights_on := _main_lights_on self;
     _available := _available self;
     _brightness := _brightness self;
     _hs_color := _hs_color self;
     _color_temp := v;
     _min_mireds := _min_mireds self;
     _max_mireds := _max_mireds self;
     _white_value := _white_value self;
     _effect_list := _effect_list self;
     _effect := _effect self;
     _supported_features := _supported_features self |}.

Definition set_min_mireds (v : pyval) (self : AdvancedLightGroup) : AdvancedLightGroup :=
  {| _name := _name self;
     _main_lights := _main_lights self;
     _aux_lights := _aux_lights self;
     _entity_ids := _entity_ids self;
     _is_on := _is_on self;
     _main_lights_on := _main_lights_on self;
     _available := _available self;
     _brightness := _brightness self;
     _hs_color := _hs_color self;
     _color_temp := _color_temp self;
     _min_mireds := v;
     _max_mireds := _max_mireds self;
     _white_value := _white_value self;
     _effect_list := _effect_list self;
     _effect := _effect self;
     _supported_features := _supported_features self |}.

Definition set_max_mireds (v : pyval) (self : AdvancedLightGroup) : AdvancedLightGroup :=
  {| _name := _name self;
     _main_lights := _main_lights self;
     _aux_lights := _aux_lights self;
     _entity_ids := _entity_ids self;
     _is_on := _is_on self;
     _main_lights_on := _main_lights_on self;
     _available := _available self;
     _brightness := _brightness self;
     _hs_color := _hs_color self;
     _color_temp := _color_temp self;
     _min_mireds := _min_mireds self;
     _max_mireds := v;
     _white_value := _white_value self;
     _effect_list := _effect_list self;
     _effect := _effect self;
     _supported_features := _supported_features self |}.

Definition set_white_value (v : pyval) (self : AdvancedLightGroup) : AdvancedLightGroup :=
  {| _name := _name self;
     _main_lights := _main_lights self;
     _aux_lights := _aux_lights self;
     _entity_ids := _entity_ids self;
     _is_on := _is_on self;
     _main_lights_on := _main_lights_on self;
     _available := _available self;
     _brightness := _brightness self;
     _hs_color := _hs_color self;
     _color_temp := _color_temp self;
     _min_mireds := _min_mireds self;
     _max_mireds := _max_mireds self;
     _white_value := v;
     _effect_list := _effect_list self;
     _effect := _effect self;
     _supported_features := _supported_features self |}.

Definition set_effect_list (v : pyval) (self : AdvancedLightGroup) : AdvancedLightGroup :=
  {| _name := _name self;
     _main_lights := _main_lights self;
     _aux_lights := _aux_lights self;
     _entity_ids := _entity_ids self;
     _is_on := _is_on self;
     _main_lights_on := _main_lights_on self;
     _available := _available self;
     _brightness := _brightness self;
     _hs_color := _hs_color self;
     _color_temp := _color_temp self;
     _min_mireds := _min_mireds self;
     _max_mireds := _max_mireds self;
     _white_value := _white_value self;
     _effect_list := v;
     _effect := _effect self;
     _supported_features := _supported_features self |}.

Definition set_effect (v : pyval) (self : AdvancedLightGroup) : AdvancedLightGroup :=
  {| _name := _name self;
     _main_lights := _main_lights self;
     _aux_lights := _aux_lights self;
     _entity_ids := _entity_ids self;
     _is_on := _is_on self;
     _main_lights_on := _main_lights_on self;
     _available := _available self;
     _brightness := _brightness self;
     _hs_color := _hs_color self;
     _color_temp := _color_temp self;
     _min_mireds := _min_mireds self;
     _max_mireds := _max_mireds self;
     _white_value := _white_value self;
     _effect_list := _effect_list self;
     _effect := v;
     _supported_features := _supported_features self |}.

Definition set_supported_features (v : pyval) (self : AdvancedLightGroup) : AdvancedLightGroup :=
  {| _name := _name self;
     _main_lights := _main_lights self;
     _aux_lights := _aux_lights self;
     _entity_ids := _entity_ids self;
     _is_on := _is_on self;
     _main_lights_on := _main_lights_on self;
     _available := _available self;
     _brightness := _brightness self;
     _hs_color := _hs_color self;
     _color_temp := _color_temp self;
     _min_mireds := _min_mireds self;
     _max_mireds := _max_mireds self;
     _white_value := _white_value self;
     _effect_list := _effect_list self;
     _effect := _effect self;
     _supported_features := v |}.

(** A method body that assigns to fields of [self] and may raise: the
    assignments made before a raise stay. *)
Definition method (A : Type) : Type :=
  AdvancedLightGroup -> AdvancedLightGroup * exc A.

#[global] Instance method_ret : MRet method := fun _ a self => (self, Ok a).
#[global] Instance method_bind : MBind method := fun _ _ f m self =>
  match m self with
  | (self', Ok a) => f a self'
  | (self', Raise e) => (self', Raise e)
  end.

Definition eval {A : Type} (c : exc A) : method A := fun self => (self, c).
Definition assign (f : AdvancedLightGroup -> AdvancedLightGroup) : method unit :=
  fun self => (f self, Ok tt).
Definition read : method AdvancedLightGroup := fun self => (self, Ok self).

(** [_get_states_and_on_states]: the known states of the members, and
    those that are on. *)
Definition _get_states_and_on_states (self : AdvancedLightGroup)
    (hass : HomeAssistant) : list State * list State :=
  let all_states := hass_states_get hass <$> _entity_ids self in
  let sts := omap id all_states in
  (sts, filter (fun st => state st = STATE_ON) sts).

(** [_get_turned_on_entities]. *)
Definition _get_turned_on_entities (self : AdvancedLightGroup)
    (hass : HomeAssistant) : list string :=
  entity_id <$> snd (_get_states_and_on_states self hass).

Section Integration.

(** The feature flags of [homeassistant.components.light]. *)
Variables SUPPORT_BRIGHTNESS SUPPORT_COLOR_TEMP SUPPORT_EFFECT SUPPORT_FLASH
  SUPPORT_COLOR SUPPORT_TRANSITION SUPPORT_WHITE_VALUE : Z.

(** [list(s)] for a set [s]: the members in the interpreter's iteration
    order, which is some arrangement of them. *)
Variable list_of_set : list pyval -> list pyval.
Hypothesis list_of_set_perm : ∀ s, list_of_set s ≡ₚ s.

Definition SUPPORT_GROUP_LIGHT : Z :=
  Z.lor (Z.lor (Z.lor (Z.lor (Z.lor (Z.lor
    SUPPORT_BRIGHTNESS
    SUPPORT_COLOR_TEMP)
    SUPPORT_EFFECT)
    SUPPORT_FLASH)
    SUPPORT_COLOR)
    SUPPORT_TRANSITION)
    SUPPORT_WHITE_VALUE.

(** The loop [for support in ...: self._supported_features |= support]. *)
Fixpoint merge_supported_features (supports : list pyval) : method unit :=
  match supports with
  | [] => mret tt
  | support :: r =>
      cur ← read;
      v ← eval (py_or (_supported_features cur) support);
      _ ← assign (set_supported_features v);
      merge_supported_features r
  end.

(** [async_update]. *)
Definition async_update (hass : HomeAssistant) : method unit := fun self =>
  (let '(sts, on_states) := _get_states_and_on_states self hass in
   let turned_on_lights := _get_turned_on_entities self hass in
   _ ← assign (set_is_on (bool_decide (0 < length on_states)%nat));
   _ ← assign (set_main_lights_on
             (existsb (fun main_light => bool_decide (main_light ∈ turned_on_lights))
                (_main_lights self)));
   _ ← assign (set_available
             (existsb (fun st => bool_decide (state st ≠ STATE_UNAVAILABLE)) sts));
   v ← eval (_reduce_attribute on_states ATTR_BRIGHTNESS VNone _mean_int);
   _ ← assign (set_brightness v);
   v ← eval (_reduce_attribute on_states ATTR_HS_COLOR VNone _mean_tuple);
   _ ← assign (set_hs_color v);
   v ← eval (_reduce_attribute on_states ATTR_WHITE_VALUE VNone _mean_int);
   _ ← assign (set_white_value v);
   v ← eval (_reduce_attribute on_states ATTR_COLOR_TEMP VNone _mean_int);
   _ ← assign (set_color_temp v);
   v ← eval (_reduce_attribute sts ATTR_MIN_MIREDS (VInt 154) py_min);
   _ ← assign (set_min_mireds v);
   v ← eval (_reduce_attribute sts ATTR_MAX_MIREDS (VInt 500) py_max);
   _ ← assign (set_max_mireds v);
   _ ← assign (set_effect_list VNone);
   let all_effect_lists := _find_state_attributes sts ATTR_EFFECT_LIST in
   _ ← match all_effect_lists with
       | [] => mret tt
       | _ =>
           s ← eval (set_union [] all_effect_lists);
           assign (set_effect_list (VList (list_of_set s)))
       end;
   _ ← assign (set_effect VNone);
   let all_effects := _find_state_attributes on_states ATTR_EFFECT in
   _ ← match all_effects with
       | [] => mret tt
       | _ =>
           effects_count ← eval (Counter all_effects);
           match most_common_1 effects_count with
           | [] => eval (Raise IndexError)
           | (e, _) :: _ => assign (set_effect e)
           end
       end;
   _ ← assign (set_supported_features (VInt 0));
   _ ← merge_supported_features (_find_state_attributes sts ATTR_SUPPORTED_FEATURES);
   cur ← read;
   v ← eval (py_and (_supported_features cur) (VInt SUPPORT_GROUP_LIGHT));
   assign (set_supported_features v)) self.

(** The two reductions that depend on the platform, as functions of the
    states: what [async_update] leaves in [_effect_list] and in
    [_supported_features] when it returns. *)
Definition effect_list_of (sts : list State) : exc pyval :=
  match _find_state_attributes sts ATTR_EFFECT_LIST with
  | [] => Ok VNone
  | all_effect_lists => s ← set_union [] all_effect_lists; Ok (VList (list_of_set s))
  end.

Fixpoint or_all (acc : pyval) (supports : list pyval) : exc pyval :=
  match supports with
  | [] => Ok acc
  | support :: r => acc' ← py_or acc support; or_all acc' r
  end.

Definition supported_features_of (sts : list State) : exc pyval :=
  acc ← or_all (VInt 0) (_find_state_attributes sts ATTR_SUPPORTED_FEATURES);
  py_and acc (VInt SUPPORT_GROUP_LIGHT).

End Integration.

(** [if key in kwargs: data[key] = kwargs[key]]. *)
Definition copy_key (key : string) (kwargs data : gmap string pyval)
    : gmap string pyval :=
  match kwargs !! key with
  | Some v => <[key := v]> data
  | None => data
  end.

(** The attributes [async_turn_on] forwards. *)
Definition turn_on_data (kwargs : gmap string pyval) : gmap string pyval :=
  let data := ∅ in
  let data := copy_key ATTR_BRIGHTNESS kwargs data in
  let data := copy_key ATTR_HS_COLOR kwargs data in
  let data := copy_key ATTR_COLOR_TEMP kwargs data in
  let data := copy_key ATTR_WHITE_VALUE kwargs data in
  let data := copy_key ATTR_EFFECT kwargs data in
  let data := copy_key ATTR_TRANSITION kwargs data in
  let data := copy_key ATTR_FLASH kwargs data in
  data.

(** [async_turn_on]. *)
Definition async_turn_on (self : AdvancedLightGroup) (kwargs : gmap string pyval)
    (hass : HomeAssistant) : HomeAssistant :=
  let data := turn_on_data kwargs in
  let data :=
    if negb (_is_on self) || bool_decide (size data = 0%nat)
    then <[ATTR_ENTITY_ID := entity_list (_main_lights self)]> data
    else <[ATTR_ENTITY_ID := entity_list (_get_turned_on_entities self hass)]> data in
  hass_services_async_call hass light_DOMAIN light_SERVICE_TURN_ON data true.

(** [async_turn_off]. *)
Definition async_turn_off (self : AdvancedLightGroup) (kwargs : gmap string pyval)
    (hass : HomeAssistant) : HomeAssistant :=
  let data := {[ATTR_ENTITY_ID := entity_list (_entity_ids self)]} in
  let data := copy_key ATTR_TRANSITION kwargs data in
  hass_services_async_call hass light_DOMAIN light_SERVICE_TURN_OFF data true.

(** [async_toggle]. *)
Definition async_toggle (self : AdvancedLightGroup) (kwargs : gmap string pyval)
    (hass : HomeAssistant) : HomeAssistant :=
  if _main_lights_on self then async_turn_off self kwargs hass
  else async_turn_on self kwargs hass.

(** ** Registration with Home Assistant *)

(** The calls the group makes to the state-change tracker:
    [async_track_state_change(hass, entity_ids, listener)], and the call of
    the callable that the [handle]-th call so far has returned. *)
Inductive TrackerCall : Type :=
| Track (entity_ids : list string)
| Unsubscribe (handle : nat).

(** [async_track_state_change]: the call is recorded, and the callable it
    returns is named by the position of the call in the record. *)
Definition async_track_state_change (calls : list TrackerCall)
    (entity_ids : list string) : list TrackerCall * nat :=
  ((calls ++ [Track entity_ids])%list, length calls).

(** The group together with the field [_async_unsub_state_changed], which
    the reductions and the commands never read. *)
Record Entity : Type := {
  group : AdvancedLightGroup;
  _async_unsub_state_changed : option nat
}.

(** The last line of [__init__]: a new group listens to nothing. *)
Definition new_entity (name : string) (main_lights aux_lights : list string) : Entity :=
  {| group := __init__ name main_lights aux_lights;
     _async_unsub_state_changed := None |}.

Section Registration.

Variables SUPPORT_BRIGHTNESS SUPPORT_COLOR_TEMP SUPPORT_EFFECT SUPPORT_FLASH
  SUPPORT_COLOR SUPPORT_TRANSITION SUPPORT_WHITE_VALUE : Z.
Variable list_of_set : list pyval -> list pyval.

(** [async_added_to_hass]: the listener is registered for the members, the
    callable is stored, then the state is recomputed; an exception of the
    recomputation leaves the callable stored. *)
Definition async_added_to_hass (hass : HomeAssistant) (calls : list TrackerCall)
    (self : Entity) : Entity * list TrackerCall * exc unit :=
  let '(calls, unsub) := async_track_state_change calls (_entity_ids (group self)) in
  let self := {| group := group self; _async_unsub_state_changed := Some unsub |} in
  let '(g, r) :=
    async_update SUPPORT_BRIGHTNESS SUPPORT_COLOR_TEMP SUPPORT_EFFECT SUPPORT_FLASH
      SUPPORT_COLOR SUPPORT_TRANSITION SUPPORT_WHITE_VALUE list_of_set hass (group self) in
  ({| group := g; _async_unsub_state_changed := _async_unsub_state_changed self |},
   calls, r).

End Registration.

(** [async_will_remove_from_hass]. *)
Definition async_will_remove_from_hass (calls : list TrackerCall) (self : Entity)
    : Entity * list TrackerCall :=
  match _async_unsub_state_changed self with
  | Some unsub =>
      ({| group := group self; _async_unsub_state_changed := None |},
       (calls ++ [Unsubscribe unsub])%list)
  | None => (self, calls)
  end.

(** ** Vocabulary of the statements *)

(** What [async_update] leaves in [_effect] when it returns. *)
Definition effect_of (on_states : list State) : exc pyval :=
  match _find_state_attributes on_states ATTR_EFFECT with
  | [] => Ok VNone
  | all_effects =>
      effects_count ← Counter all_effects;
      match most_common_1 effects_count with
      | [] => Raise IndexError
      | (e, _) :: _ => Ok e
      end
  end.

(** [__init__] stores the members as the main lights followed by the
    auxiliary lights, and nothing assigns to these fields afterwards. *)
Definition constructed (self : AdvancedLightGroup) : Prop :=
  _entity_ids self = (_main_lights self ++ _aux_lights self)%list.

(** The keys [async_turn_on] copies from its keyword arguments. *)
Definition forwarded_keys : list string :=
  [ATTR_BRIGHTNESS; ATTR_HS_COLOR; ATTR_COLOR_TEMP; ATTR_WHITE_VALUE;
   ATTR_EFFECT; ATTR_TRANSITION; ATTR_FLASH].


(** The effect a state reports, when it is a string. *)
Definition effect_name (st : State) : option string :=
  match attributes st !! ATTR_EFFECT with
  | Some (VStr s) => Some s
  | _ => None
  end.

(** The state reports no effect, or [None], or a string. *)
Definition effect_typed (st : State) : Prop :=
  match attributes st !! ATTR_EFFECT with
  | None | Some VNone | Some (VStr _) => True
  | _ => False
  end.

(** The last known state of the entity [x] is on. *)
Definition is_on_in (hass : HomeAssistant) (x : string) : bool :=
  match states hass !! x with
  | Some st => bool_decide (state st = STATE_ON)
  | None => false
  end.

(** The sum of a list of integers. *)
Definition Zsum (zs : list Z) : Z := fold_right Z.add 0 zs.

(** The least and the greatest of a non-empty list of integers. *)
Definition Zmin_list (z : Z) (zs : list Z) : Z := fold_left Z.min zs z.
Definition Zmax_list (z : Z) (zs : list Z) : Z := fold_left Z.max zs z.

(** A colour as the pair [(hue, saturation)]. *)
Definition hs_pair (c : pyval * pyval) : pyval := VTuple [c.1; c.2].

(** The number of occurrences of [s] in [ss]. *)
Definition count_str (s : string) (ss : list string) : nat :=
  length (filter (fun x => x = s) ss).

(** The entries of a counter whose keys are strings. *)
Definition str_entries (cs : list (string * nat)) : list (pyval * nat) :=
  (fun p => (VStr p.1, p.2)) <$> cs.

(** The strings of [acc] followed by those of [ss] that are not yet there,
    each once, in the order in which they first occur. *)
Definition seen_from (acc ss : list string) : list string :=
  fold_left (fun acc x => if decide (x ∈ acc) then acc else (acc ++ [x])%list) ss acc.

(** The distinct strings of [ss] in the order in which they first occur. *)
Definition first_seen (ss : list string) : list string := seen_from [] ss.

(** An effect list as a Python value. *)
Definition effect_names (l : list string) : pyval := VList (VStr <$> l).

(** The known states of the entities [ids], in that order: the first
    component of [_get_states_and_on_states]. *)
Definition states_of (hass : HomeAssistant) (ids : list string) : list State :=
  omap id (hass_states_get hass <$> ids).

(** A colour whose two components are floats. *)
Definition float_pair (c : spec_float * spec_float) : pyval :=
  VTuple [VFloat c.1; VFloat c.2].

(** The attributes read by a recomputation have the types Home Assistant
    documents: integers for brightness, white value, colour temperature,
    mired bounds and feature masks, pairs of floats for colours, strings
    for effects and lists of strings for effect lists.  The integers that
    are averaged sum up to less than [2^53] in magnitude, and there are
    fewer than [2^53] states. *)
Definition well_typed (sts on_states : list State) : Prop :=
  (∀ key, key ∈ [ATTR_BRIGHTNESS; ATTR_WHITE_VALUE; ATTR_COLOR_TEMP] →
     ∃ zs, _find_state_attributes on_states key = VInt <$> zs
           ∧ Z.abs (Zsum zs) < 2 ^ 53)
  ∧ (∃ cs, _find_state_attributes on_states ATTR_HS_COLOR = float_pair <$> cs)
  ∧ (∀ key, key ∈ [ATTR_MIN_MIREDS; ATTR_MAX_MIREDS] →
       ∃ zs, _find_state_attributes sts key = VInt <$> zs)
  ∧ (∃ ls, _find_state_attributes sts ATTR_EFFECT_LIST = effect_names <$> ls)
  ∧ (∃ ss, _find_state_attributes on_states ATTR_EFFECT = VStr <$> ss)
  ∧ (∃ masks, _find_state_attributes sts ATTR_SUPPORTED_FEATURES = VInt <$> masks)
  ∧ Z.of_nat (length on_states) < 2 ^ 53.

(** [v] is an int or a float. *)
Definition is_number (v : pyval) : Prop :=
  match v with
  | VInt _ | VFloat _ => True
  | _ => False
  end.

(** ** Sample installations *)

(** A state machine holding the given states, and no service call yet. *)
Definition hass_of (l : list State) : HomeAssistant :=
  {| states := list_to_map ((fun st => (entity_id st, st)) <$> l);
     service_calls := [] |}.

(** The binary64 numbers 10.0 and 20.0. *)
Definition f10 : spec_float := S754_finite false 5629499534213120 (-49).
Definition f20 : spec_float := S754_finite false 5629499534213120 (-48).

(** A ceiling lamp and a spot as main lights, a floor lamp as auxiliary
    light.  The ceiling lamp reports feature bits the group does not
    know. *)
Definition ceiling_on : State :=
  {| entity_id := "light.ceiling"; state := STATE_ON;
     attributes := list_to_map
       [(ATTR_BRIGHTNESS, VInt 100); (ATTR_HS_COLOR, VTuple [VFloat f10; VFloat f20]);
        (ATTR_EFFECT, VStr "rainbow");
        (ATTR_EFFECT_LIST, VList [VStr "rainbow"; VStr "pulse"]);
        (ATTR_MIN_MIREDS, VInt 153); (ATTR_MAX_MIREDS, VInt 370);
        (ATTR_SUPPORTED_FEATURES, VInt 1023)] |}.

Definition spot_on : State :=
  {| entity_id := "light.spot"; state := STATE_ON;
     attributes := list_to_map
       [(ATTR_BRIGHTNESS, VInt 101); (ATTR_HS_COLOR, VTuple [VFloat f20; VFloat f20]);
        (ATTR_EFFECT, VStr "pulse");
        (ATTR_MIN_MIREDS, VInt 200); (ATTR_MAX_MIREDS, VInt 454);
        (ATTR_SUPPORTED_FEATURES, VInt 1)] |}.

Definition floor_off : State :=
  {| entity_id := "light.floor"; state := "off";
     attributes := list_to_map [(ATTR_SUPPORTED_FEATURES, VInt 4)] |}.

Definition living_room : HomeAssistant := hass_of [ceiling_on; spot_on; floor_off].

Definition living_room_group : AdvancedLightGroup :=
  __init__ "Living room" ["light.ceiling"; "light.spot"] ["light.floor"].

(** The group as [async_update] leaves it, with the feature flags of Home
    Assistant and sets listed in insertion order. *)
Definition living_room_updated : AdvancedLightGroup :=
  fst (async_update 1 2 4 8 16 32 128 (fun s => s) living_room living_room_group).

(** A kitchen whose two lamps report their brightness as text. *)
Definition kitchen : HomeAssistant :=
  hass_of
    [{| entity_id := "light.counter"; state := STATE_ON;
        attributes := list_to_map [(ATTR_BRIGHTNESS, VStr "high")] |};
     {| entity_id := "light.table"; state := STATE_ON;
        attributes := list_to_map [(ATTR_BRIGHTNESS, VStr "low")] |}].

Definition kitchen_group : AdvancedLightGroup :=
  __init__ "Kitchen" ["light.counter"; "light.table"] [].

(** A hallway whose main light is off while its auxiliary light is on. *)
Definition hallway : HomeAssistant :=
  hass_of
    [{| entity_id := "light.hall_main"; state := "off"; attributes := ∅ |};
     {| entity_id := "light.hall_aux"; state := STATE_ON;
        attributes := list_to_map [(ATTR_BRIGHTNESS, VInt 3)] |}].

Definition hallway_group : AdvancedLightGroup :=
  __init__ "Hallway" ["light.hall_main"] ["light.hall_aux"].

Definition hallway_updated : AdvancedLightGroup :=
  fst (async_update 1 2 4 8 16 32 128 (fun s => s) hallway hallway_group).

(** Two lamps whose brightness is an integer above [2^53]. *)
Definition bright_room : HomeAssistant :=
  hass_of
    [{| entity_id := "light.one"; state := STATE_ON;
        attributes := list_to_map [(ATTR_BRIGHTNESS, VInt 9007199254740993)] |};
     {| entity_id := "light.two"; state := STATE_ON;
        attributes := list_to_map [(ATTR_BRIGHTNESS, VInt 9007199254740994)] |}].

Definition bright_room_group : AdvancedLightGroup :=
  __init__ "Bright room" ["light.one"; "light.two"] [].

(** A study whose desk lamp is listed both as main and as auxiliary
    light. *)
Definition study : HomeAssistant :=
  hass_of
    [{| entity_id := "light.desk"; state := STATE_ON;
        attributes := list_to_map [(ATTR_BRIGHTNESS, VInt 100)] |};
     {| entity_id := "light.shelf"; state := STATE_ON;
        attributes := list_to_map [(ATTR_BRIGHTNESS, VInt 10)] |}].


Definition study_group : AdvancedLightGroup :=
  __init__ "Study" ["light.desk"] ["light.desk"; "light.shelf"].

(** No entity has reported a state yet. *)
Definition no_states : HomeAssistant := hass_of [].

(** An attic whose lamp is off, with the brightness it had, and whose spare
    lamp is unavailable. *)
Definition attic_lamp_off : State :=
  {| entity_id := "light.attic"; state := "off";
     attributes := list_to_map [(ATTR_BRIGHTNESS, VInt 40)] |}.

Definition attic_spare_unavailable : State :=
  {| entity_id := "light.attic_spare"; state := STATE_UNAVAILABLE; attributes := ∅ |}.

Definition attic : HomeAssistant := hass_of [attic_lamp_off; attic_spare_unavailable].

Definition attic_group : AdvancedLightGroup :=
  __init__ "Attic" ["light.attic"] ["light.attic_spare"].

(** The living room with its members listed the other way round. *)
Definition living_room_regrouped : AdvancedLightGroup :=
  __init__ "Living room" ["light.floor"] ["light.spot"; "light.ceiling"].

(** The length of the shortest of a non-empty family of sequences. *)
Definition shortest (first : list pyval) (others : list (list pyval)) : nat :=
  fold_right Nat.min (length first) (length <$> others).

(** A stage whose three lamps that are on run the effects rainbow, pulse
    and rainbow, and whose back lamp is off with the effect strobe left
    over. *)
Definition stage_lamp (name power : string) (effect : string) : State :=
  {| entity_id := name; state := power;
     attributes := list_to_map [(ATTR_EFFECT, VStr effect)] |}.

Definition stage : HomeAssistant :=
  hass_of [stage_lamp "light.left" STATE_ON "rainbow";
           stage_lamp "light.centre" STATE_ON "pulse";
           stage_lamp "light.right" STATE_ON "rainbow";
           stage_lamp "light.back" "off" "strobe"].

Definition stage_group : AdvancedLightGroup :=
  __init__ "Stage" ["light.left"; "light.centre"] ["light.right"; "light.back"].
(** * Properties *)

(** ** The dispatcher *)

Lemma init_constructed name main_lights aux_lights :
  constructed (__init__ name main_lights aux_lights).
Proof. reflexivity. Qed.

Lemma copy_key_lookup key kwargs data k :
  copy_key key kwargs data !! k =
  if decide (k = key) then
    match kwargs !! key with Some v => Some v | None => data !! k end
  else data !! k.
Proof.
  unfold copy_key. destruct (kwargs !! key) as [v|] eqn:E; case_decide; subst;
    simplify_map_eq; done.
Qed.

Ltac decide_keys :=
  repeat first [ rewrite decide_True by reflexivity
               | rewrite decide_False by (vm_compute; discriminate) ].

Lemma turn_on_data_lookup kwargs k :
  turn_on_data kwargs !! k =
  if decide (k ∈ forwarded_keys) then kwargs !! k else None.
Proof.
  unfold turn_on_data. rewrite !copy_key_lookup, lookup_empty.
  destruct (decide (k ∈ forwarded_keys)) as [Hin|Hnin].
  - unfold forwarded_keys in Hin.
    repeat (apply elem_of_cons in Hin as [->|Hin]);
      [..|by apply elem_of_nil in Hin];
      decide_keys; repeat case_match; congruence.
  - repeat (rewrite decide_False; [|intros ->; apply Hnin; unfold forwarded_keys; set_solver]).
    reflexivity.
Qed.

Lemma on_states_spec self hass st :
  st ∈ snd (_get_states_and_on_states self hass) ↔
  ∃ x, x ∈ _entity_ids self ∧ states hass !! x = Some st ∧ state st = STATE_ON.
Proof.
  unfold _get_states_and_on_states; simpl.
  rewrite list_elem_of_filter, list_elem_of_omap. split.
  - intros [Hon (o & Ho & Hid)]. unfold id in Hid; subst o.
    apply list_elem_of_fmap in Ho as (x & Hx & Hin). eauto.
  - intros (x & Hin & Hx & Hon). split; [done|].
    exists (Some st). split; [|done].
    apply list_elem_of_fmap. exists x. unfold hass_states_get. eauto.
Qed.

Lemma turned_on_entities_spec self hass x :
  states_keyed hass →
  x ∈ _get_turned_on_entities self hass ↔
  x ∈ _entity_ids self ∧ ∃ st, states hass !! x = Some st ∧ state st = STATE_ON.
Proof.
  intros Hk. unfold _get_turned_on_entities. rewrite list_elem_of_fmap. split.
  - intros (st & -> & Hst). apply on_states_spec in Hst as (y & Hin & Hy & Hon).
    rewrite (Hk _ _ Hy). eauto.
  - intros (Hin & st & Hx & Hon). exists st. split; [by rewrite (Hk _ _ Hx)|].
    apply on_states_spec. eauto.
Qed.

(** C5.  Turning off issues one [light.turn_off] call whose target is the
    main lights followed by the auxiliary lights, whatever the members'
    states (the call does not read them); of the keyword arguments only
    [transition] is forwarded. *)
Theorem async_turn_off_targets_all self kwargs hass :
  constructed self →
  ∃ data,
    async_turn_off self kwargs hass =
      hass_services_async_call hass light_DOMAIN light_SERVICE_TURN_OFF data true
    ∧ service_calls (async_turn_off self kwargs hass) =
        (service_calls hass ++
         [{| domain := light_DOMAIN; service := light_SERVICE_TURN_OFF;
             service_data := data; blocking := true |}])%list
    ∧ data !! ATTR_ENTITY_ID =
        Some (entity_list (_main_lights self ++ _aux_lights self)%list)
    ∧ data !! ATTR_TRANSITION = kwargs !! ATTR_TRANSITION
    ∧ ∀ k, k ≠ ATTR_ENTITY_ID → k ≠ ATTR_TRANSITION → data !! k = None.
Proof.
  intros Hc. eexists. split; [reflexivity|]. split; [reflexivity|].
  rewrite !copy_key_lookup. decide_keys. rewrite lookup_singleton_eq, Hc.
  split; [reflexivity|]. split.
  - destruct (kwargs !! ATTR_TRANSITION) eqn:E; [done|].
    by rewrite lookup_singleton_ne.
  - intros k Hk1 Hk2. rewrite copy_key_lookup, decide_False by done.
    by rewrite lookup_singleton_ne.
Qed.

(** C1.  Turning on issues one [light.turn_on] call that carries the
    forwarded keyword arguments unchanged.  When the cached [_is_on] is
    false or nothing is forwarded, its target is the list of main lights;
    otherwise its target is the members whose latest known state is on. *)
Theorem async_turn_on_target self kwargs hass :
  constructed self →
  states_keyed hass →
  ∃ target,
    async_turn_on self kwargs hass =
      hass_services_async_call hass light_DOMAIN light_SERVICE_TURN_ON
        (<[ATTR_ENTITY_ID := entity_list target]> (turn_on_data kwargs)) true
    ∧ service_calls (async_turn_on self kwargs hass) =
        (service_calls hass ++
         [{| domain := light_DOMAIN; service := light_SERVICE_TURN_ON;
             service_data := <[ATTR_ENTITY_ID := entity_list target]> (turn_on_data kwargs);
             blocking := true |}])%list
    ∧ (∀ k, turn_on_data kwargs !! k =
            if decide (k ∈ forwarded_keys) then kwargs !! k else None)
    ∧ (_is_on self = false ∨ turn_on_data kwargs = ∅ → target = _main_lights self)
    ∧ (_is_on self = true ∧ turn_on_data kwargs ≠ ∅ →
         target = _get_turned_on_entities self hass
         ∧ ∀ x, x ∈ target ↔
                x ∈ (_main_lights self ++ _aux_lights self)%list
                ∧ ∃ st, states hass !! x = Some st ∧ state st = STATE_ON).
Proof.
  intros Hc Hk. unfold async_turn_on.
  destruct (negb (_is_on self) || bool_decide (size (turn_on_data kwargs) = 0%nat))
    eqn:Hcond.
  - exists (_main_lights self). do 2 (split; [reflexivity|]).
    split; [apply turn_on_data_lookup|]. split; [done|].
    intros [Hon Hne]. rewrite Hon in Hcond. simpl in Hcond.
    apply bool_decide_eq_true in Hcond. by apply map_size_empty_iff in Hcond.
  - exists (_get_turned_on_entities self hass). do 2 (split; [reflexivity|]).
    split; [apply turn_on_data_lookup|].
    apply orb_false_iff in Hcond as [Hon Hsz].
    apply negb_false_iff in Hon. apply bool_decide_eq_false in Hsz. split.
    + intros [Hoff | Hemp]; [congruence|]. by rewrite Hemp, map_size_empty in Hsz.
    + intros _. split; [done|]. intros x. rewrite <- Hc.
      by apply turned_on_entities_spec.
Qed.

(** ** The recomputation, step by step *)

Section Recompute.

Context (SUPPORT_BRIGHTNESS SUPPORT_COLOR_TEMP SUPPORT_EFFECT SUPPORT_FLASH
  SUPPORT_COLOR SUPPORT_TRANSITION SUPPORT_WHITE_VALUE : Z).
Context (list_of_set : list pyval -> list pyval).

Local Abbreviation update :=
  (async_update SUPPORT_BRIGHTNESS SUPPORT_COLOR_TEMP SUPPORT_EFFECT SUPPORT_FLASH
     SUPPORT_COLOR SUPPORT_TRANSITION SUPPORT_WHITE_VALUE list_of_set).
Local Abbreviation GROUP_MASK :=
  (SUPPORT_GROUP_LIGHT SUPPORT_BRIGHTNESS SUPPORT_COLOR_TEMP SUPPORT_EFFECT
     SUPPORT_FLASH SUPPORT_COLOR SUPPORT_TRANSITION SUPPORT_WHITE_VALUE).
Local Abbreviation features_of :=
  (supported_features_of SUPPORT_BRIGHTNESS SUPPORT_COLOR_TEMP SUPPORT_EFFECT
     SUPPORT_FLASH SUPPORT_COLOR SUPPORT_TRANSITION SUPPORT_WHITE_VALUE).

Ltac run_method :=
  cbv [mbind method_bind exc_bind mret method_ret exc_ret eval assign read].

Lemma merge_supported_features_run supports self :
  merge_supported_features supports self =
  match or_all (_supported_features self) supports with
  | Ok v => (set_supported_features v self, Ok tt)
  | Raise e => (fst (merge_supported_features supports self), Raise e)
  end.
Proof.
  revert self. induction supports as [|support r IH]; intros self; simpl.
  - by destruct self.
  - run_method. destruct (py_or (_supported_features self) support) as [v|e]; simpl; [|done].
    fold (merge_supported_features r). rewrite IH. simpl.
    destruct (or_all v r); simpl; [by destruct self|done].
Qed.

Lemma update_result hass self self' :
  update hass self = (self', Ok tt) →
  let '(sts, on_states) := _get_states_and_on_states self hass in
  _reduce_attribute on_states ATTR_BRIGHTNESS VNone _mean_int = Ok (_brightness self')
  ∧ _reduce_attribute on_states ATTR_HS_COLOR VNone _mean_tuple = Ok (_hs_color self')
  ∧ _reduce_attribute on_states ATTR_WHITE_VALUE VNone _mean_int = Ok (_white_value self')
  ∧ _reduce_attribute on_states ATTR_COLOR_TEMP VNone _mean_int = Ok (_color_temp self')
  ∧ _reduce_attribute sts ATTR_MIN_MIREDS (VInt 154) py_min = Ok (_min_mireds self')
  ∧ _reduce_attribute sts ATTR_MAX_MIREDS (VInt 500) py_max = Ok (_max_mireds self')
  ∧ effect_list_of list_of_set sts = Ok (_effect_list self')
  ∧ effect_of on_states = Ok (_effect self')
  ∧ features_of sts = Ok (_supported_features self').
Proof.
  unfold async_update, effect_list_of, effect_of, supported_features_of.
  destruct (_get_states_and_on_states self hass) as [sts on_states].
  run_method.
  repeat match goal with
         | |- context [match _reduce_attribute ?a ?b ?c ?d with _ => _ end] =>
             destruct (_reduce_attribute a b c d); [|discriminate]
         end.
  destruct (_find_state_attributes sts ATTR_EFFECT_LIST) as [|l1 ls].
  all: destruct (_find_state_attributes on_states ATTR_EFFECT) as [|e1 es].
  all: repeat match goal with
         | |- context [match set_union ?a ?b with _ => _ end] =>
             destruct (set_union a b); [|discriminate]
         | |- context [match Counter ?a with _ => _ end] =>
             destruct (Counter a) as [c|]; [destruct (most_common_1 c) as [|[? ?] ?]|];
             try discriminate
         end.
  all: rewrite merge_supported_features_run; simpl.
  all: destruct (or_all _ _) as [acc|]; simpl; [|discriminate].
  all: destruct (py_and acc _); [|discriminate].
  all: intros [= <-]; simpl; repeat split; reflexivity.
Qed.

Lemma merge_supported_features_keeps supports self :
  let self' := fst (merge_supported_features supports self) in
  _is_on self' = _is_on self
  ∧ _main_lights_on self' = _main_lights_on self
  ∧ _available self' = _available self
  ∧ _main_lights self' = _main_lights self
  ∧ _aux_lights self' = _aux_lights self
  ∧ _entity_ids self' = _entity_ids self.
Proof.
  revert self. induction supports as [|support r IH]; intros self; simpl.
  - done.
  - run_method. destruct (py_or (_supported_features self) support) as [v|e]; simpl; [|done].
    fold (merge_supported_features r).
    specialize (IH (set_supported_features v self)).
    destruct (merge_supported_features r (set_supported_features v self)) as [s' [[]|e]];
      simpl in *; exact IH.
Qed.

(** The three flags and the membership are settled before anything can
    raise. *)
Lemma update_flags hass self :
  let self' := fst (update hass self) in
  let '(sts, on_states) := _get_states_and_on_states self hass in
  _is_on self' = bool_decide (0 < length on_states)%nat
  ∧ _main_lights_on self' =
      existsb (fun main_light =>
                 bool_decide (main_light ∈ _get_turned_on_entities self hass))
        (_main_lights self)
  ∧ _available self' =
      existsb (fun st => bool_decide (state st ≠ STATE_UNAVAILABLE)) sts
  ∧ _main_lights self' = _main_lights self
  ∧ _aux_lights self' = _aux_lights self
  ∧ _entity_ids self' = _entity_ids self.
Proof.
  unfold async_update.
  destruct (_get_states_and_on_states self hass) as [sts on_states].
  run_method.
  repeat match goal with
         | |- context [match _reduce_attribute ?a ?b ?c ?d with _ => _ end] =>
             destruct (_reduce_attribute a b c d); [|simpl; done]
         end.
  destruct (_find_state_attributes sts ATTR_EFFECT_LIST) as [|l1 ls].
  all: destruct (_find_state_attributes on_states ATTR_EFFECT) as [|e1 es].
  all: repeat match goal with
         | |- context [match set_union ?a ?b with _ => _ end] =>
             destruct (set_union a b); [|simpl; done]
         | |- context [match Counter ?a with _ => _ end] =>
             destruct (Counter a) as [c|]; [destruct (most_common_1 c) as [|[? ?] ?]|];
             try (simpl; done)
         end.
  all: match goal with
       | |- context [merge_supported_features ?l ?s] =>
           pose proof (merge_supported_features_keeps l s) as Hk;
           destruct (merge_supported_features l s) as [s' [[]|e]]
       end; simpl in *.
  all: try (destruct (py_and _ _); simpl).
  all: exact Hk.
Qed.

Lemma update_total hass self b hs w ct mn mx el e sf :
  let '(sts, on_states) := _get_states_and_on_states self hass in
  _reduce_attribute on_states ATTR_BRIGHTNESS VNone _mean_int = Ok b →
  _reduce_attribute on_states ATTR_HS_COLOR VNone _mean_tuple = Ok hs →
  _reduce_attribute on_states ATTR_WHITE_VALUE VNone _mean_int = Ok w →
  _reduce_attribute on_states ATTR_COLOR_TEMP VNone _mean_int = Ok ct →
  _reduce_attribute sts ATTR_MIN_MIREDS (VInt 154) py_min = Ok mn →
  _reduce_attribute sts ATTR_MAX_MIREDS (VInt 500) py_max = Ok mx →
  effect_list_of list_of_set sts = Ok el →
  effect_of on_states = Ok e →
  features_of sts = Ok sf →
  ∃ self', update hass self = (self', Ok tt).
Proof.
  unfold async_update, effect_list_of, effect_of, supported_features_of.
  destruct (_get_states_and_on_states self hass) as [sts on_states].
  intros -> -> -> -> -> ->. run_method.
  destruct (_find_state_attributes sts ATTR_EFFECT_LIST) as [|l1 ls].
  all: destruct (_find_state_attributes on_states ATTR_EFFECT) as [|e1 es].
  all: repeat match goal with
         | |- context [match set_union ?a ?b with _ => _ end] =>
             destruct (set_union a b); [|discriminate]
         | |- context [match Counter ?a with _ => _ end] =>
             destruct (Counter a) as [c|]; [destruct (most_common_1 c) as [|[? ?] ?]|];
             try discriminate
         end.
  all: intros _ _; rewrite merge_supported_features_run; simpl.
  all: destruct (or_all _ _) as [acc|]; simpl; [|discriminate].
  all: destruct (py_and acc _); [|discriminate].
  all: intros _; eexists; reflexivity.
Qed.

Lemma main_lights_on_spec hass self :
  constructed self →
  states_keyed hass →
  _main_lights_on (fst (update hass self)) = true ↔
  ∃ x st, x ∈ _main_lights self ∧ states hass !! x = Some st ∧ state st = STATE_ON.
Proof.
  intros Hc Hk. pose proof (update_flags hass self) as Hf.
  destruct (_get_states_and_on_states self hass) as [sts on_states].
  destruct Hf as (_ & -> & _). rewrite existsb_exists. split.
  - intros (x & Hin & Hx). apply bool_decide_eq_true in Hx.
    apply list_elem_of_In in Hin.
    apply turned_on_entities_spec in Hx as (_ & st & Hst & Hon); eauto.
  - intros (x & st & Hin & Hst & Hon). exists x. split; [by apply list_elem_of_In|].
    apply bool_decide_eq_true, turned_on_entities_spec; [done|]. split; [|eauto].
    rewrite Hc. set_solver.
Qed.

(** C4.  Toggling turns the group off exactly when the cached
    [_main_lights_on] is true and turns it on otherwise, with the same
    keyword arguments; after a recomputation that flag says whether some
    main light is on, whatever the auxiliary lights do. *)
Theorem async_toggle_delegates self0 hass0 kwargs hass :
  constructed self0 →
  states_keyed hass0 →
  (∀ self, _main_lights_on self = true →
     async_toggle self kwargs hass = async_turn_off self kwargs hass)
  ∧ (∀ self, _main_lights_on self = false →
       async_toggle self kwargs hass = async_turn_on self kwargs hass)
  ∧ (_main_lights_on (fst (update hass0 self0)) = true ↔
       ∃ x st, x ∈ _main_lights self0 ∧ states hass0 !! x = Some st
               ∧ state st = STATE_ON).
Proof.
  intros Hc Hk. split; [|split].
  - intros self H. unfold async_toggle. by rewrite H.
  - intros self H. unfold async_toggle. by rewrite H.
  - by apply main_lights_on_spec.
Qed.

(** ** Supported features *)

Lemma or_all_ints a masks :
  or_all (VInt a) (VInt <$> masks) = Ok (VInt (fold_left Z.lor masks a)).
Proof.
  revert a. induction masks as [|m r IH]; intros a; simpl; [done|].
  run_method. apply IH.
Qed.

(** C3.  When the members report integer masks, the recomputed
    [_supported_features] is the bitwise or of the reported masks, and-ed
    with [SUPPORT_GROUP_LIGHT]; every bit of it is a bit of that mask. *)
Theorem supported_features_masked hass self masks :
  _find_state_attributes (fst (_get_states_and_on_states self hass))
    ATTR_SUPPORTED_FEATURES = VInt <$> masks →
  let result := Z.land (fold_left Z.lor masks 0) GROUP_MASK in
  features_of (fst (_get_states_and_on_states self hass)) = Ok (VInt result)
  ∧ (∀ self', update hass self = (self', Ok tt) →
       _supported_features self' = VInt result)
  ∧ Z.land result GROUP_MASK = result
  ∧ ∀ i, Z.testbit result i = true → Z.testbit GROUP_MASK i = true.
Proof.
  intros Hm result.
  assert (Hf : features_of (fst (_get_states_and_on_states self hass)) = Ok (VInt result)).
  { unfold supported_features_of. rewrite Hm, or_all_ints. reflexivity. }
  split; [exact Hf|]. split; [|split].
  - intros self' Hu. apply update_result in Hu.
    destruct (_get_states_and_on_states self hass) as [sts on_states].
    destruct Hu as (_ & _ & _ & _ & _ & _ & _ & _ & Hsf). simpl in Hf. congruence.
  - unfold result. rewrite <- Z.land_assoc, Z.land_diag. reflexivity.
  - intros i. unfold result. rewrite Z.land_spec. intros [_ H]%andb_true_iff. exact H.
Qed.

End Recompute.

(** ** Instances on the sample installations *)

Lemma hass_of_keyed l : states_keyed (hass_of l).
Proof.
  intros x st H. apply elem_of_list_to_map_2 in H.
  apply list_elem_of_fmap in H as (st' & [= -> ->] & _). reflexivity.
Qed.

Lemma async_turn_off_targets_all_witness :
  constructed living_room_updated
  ∧ ∃ data,
      async_turn_off living_room_updated {[ATTR_TRANSITION := VInt 2]} living_room =
        hass_services_async_call living_room light_DOMAIN light_SERVICE_TURN_OFF data true
      ∧ data !! ATTR_ENTITY_ID =
          Some (entity_list ["light.ceiling"; "light.spot"; "light.floor"]).
Proof.
  split; [reflexivity|].
  destruct (async_turn_off_targets_all living_room_updated
              {[ATTR_TRANSITION := VInt 2]} living_room eq_refl)
    as (data & H1 & _ & H2 & _).
  exists data. split; [exact H1 | exact H2].
Defined.

Lemma async_turn_on_target_witness :
  constructed living_room_updated
  ∧ states_keyed living_room
  ∧ ∃ target,
      async_turn_on living_room_updated {[ATTR_BRIGHTNESS := VInt 10]} living_room =
        hass_services_async_call living_room light_DOMAIN light_SERVICE_TURN_ON
          (<[ATTR_ENTITY_ID := entity_list target]>
             (turn_on_data {[ATTR_BRIGHTNESS := VInt 10]})) true.
Proof.
  split; [reflexivity|]. split; [apply hass_of_keyed|].
  destruct (async_turn_on_target living_room_updated
              {[ATTR_BRIGHTNESS := VInt 10]} living_room eq_refl
              (hass_of_keyed _))
    as (target & H1 & _).
  exists target. exact H1.
Defined.

Lemma async_toggle_delegates_witness :
  constructed living_room_group
  ∧ states_keyed living_room
  ∧ (_main_lights_on living_room_updated = true ↔
       ∃ x st, x ∈ _main_lights living_room_group
               ∧ states living_room !! x = Some st ∧ state st = STATE_ON).
Proof.
  split; [reflexivity|]. split; [apply hass_of_keyed|].
  exact (proj2 (proj2 (async_toggle_delegates 1 2 4 8 16 32 128 (fun s => s)
                         living_room_group living_room ∅ living_room
                         eq_refl (hass_of_keyed _)))).
Defined.

Lemma supported_features_masked_witness :
  _find_state_attributes (fst (_get_states_and_on_states living_room_group living_room))
    ATTR_SUPPORTED_FEATURES = VInt <$> [1023; 1; 4]
  ∧ _supported_features living_room_updated = VInt 191.
Proof.
  split; [vm_compute; reflexivity|].
  refine (proj1 (proj2 (supported_features_masked 1 2 4 8 16 32 128 (fun s => s)
                   living_room living_room_group [1023; 1; 4] _)) _ _).
  - vm_compute; reflexivity.
  - vm_compute; reflexivity.
Defined.

(** ** Binary64 division of integers *)

Lemma round_half_even_bounds p q :
  0 <= p -> 0 < q ->
  p / q <= round_half_even p q <= p / q + 1
  /\ (round_half_even p q = p / q + 1 -> q <= 2 * (p mod q)).
Proof.
  intros Hp Hq. unfold round_half_even.
  destruct (Z.compare_spec (2 * (p mod q)) q) as [H|H|H].
  - destruct (Z.even (p / q)); lia.
  - lia.
  - lia.
Qed.

(** Rounding [p * n / q] stays within the integers [t * n] and [(t+1) * n]
    around it, where [t = p / q], as long as [q < 2 * n]. *)
Lemma round_scaled_between p q n :
  0 <= p -> 0 < q -> 0 < n -> q < 2 * n ->
  (p / q) * n <= round_half_even (p * n) q < (p / q + 1) * n.
Proof.
  intros Hp Hq Hn Hqn.
  destruct (round_half_even_bounds (p * n) q) as [[Hlo Hhi] Hup]; [nia|lia|].
  pose proof (Z.div_mod p q ltac:(lia)) as Hpq.
  pose proof (Z.mod_pos_bound p q Hq) as Hr.
  pose proof (Z.div_mod (p * n) q ltac:(lia)) as HF.
  pose proof (Z.mod_pos_bound (p * n) q Hq) as HrF.
  set (t := p / q) in *. set (F := p * n / q) in *.
  set (r := p mod q) in *. set (rF := (p * n) mod q) in *.
  assert (HtF : t * n <= F) by nia.
  assert (HFT : F < (t + 1) * n) by nia.
  split; [lia|].
  destruct (Z.eq_dec (round_half_even (p * n) q) (F + 1)) as [E|E]; [|lia].
  specialize (Hup E). nia.
Qed.

Lemma scaled_num_neg p e : e <= 0 -> scaled_num p e = p * 2 ^ (- e).
Proof. intros H. unfold scaled_num. rewrite Z.max_r by lia. reflexivity. Qed.

Lemma scaled_den_neg q e : e <= 0 -> scaled_den q e = q.
Proof. intros H. unfold scaled_den. rewrite Z.max_l by lia. simpl. lia. Qed.

(** Below [2^53] the rounded quotient truncates to the integer quotient. *)
Lemma b64_round_small p q :
  0 < p < 2 ^ 53 -> 0 < q ->
  let '(m, e) := b64_round p q in
  0 <= m /\ e <= 1
  /\ (if 0 <=? e then m * 2 ^ e else m / 2 ^ (- e)) = p / q.
Proof.
  intros [Hp Hp53] Hq. unfold b64_round.
  pose proof (Z.log2_spec p Hp) as [Ha1 Ha2].
  pose proof (Z.log2_spec q Hq) as [Hb1 Hb2].
  pose proof (Z.log2_nonneg p) as Ha0. pose proof (Z.log2_nonneg q) as Hb0.
  assert (Ha : Z.log2 p < 53) by (apply Z.log2_lt_pow2; lia).
  set (a := Z.log2 p) in *. set (b := Z.log2 q) in *.
  set (e0 := a - b - 52).
  assert (He0 : e0 <= 0) by (unfold e0; lia).
  rewrite (scaled_num_neg p e0), (scaled_den_neg q e0) by lia.
  set (e1 := if p * 2 ^ (- e0) <? 2 ^ 52 * q then e0 - 1 else e0).
  assert (He1 : e0 - 1 <= e1 <= e0) by (unfold e1; destruct (_ <? _); lia).
  (* at exponent [e1] the quotient is at least [2^52] *)
  assert (Hnorm : 2 ^ 52 * q <= p * 2 ^ (- e1)).
  { unfold e1. destruct (Z.ltb_spec (p * 2 ^ (- e0)) (2 ^ 52 * q)) as [Hlt|Hge]; [|lia].
    replace (- (e0 - 1)) with (- e0 + 1) by lia.
    rewrite Z.pow_add_r by lia. change (2 ^ 1) with 2.
    assert (2 ^ a * 2 ^ (- e0) = 2 ^ 51 * 2 ^ (b + 1)).
    { rewrite <- !Z.pow_add_r by lia. f_equal. unfold e0. lia. }
    assert (0 < 2 ^ (- e0)) by (apply Z.pow_pos_nonneg; lia).
    nia. }
  set (e := Z.max e1 (- 1074)).
  assert (He : e <= 0) by (unfold e; lia).
  rewrite (scaled_num_neg p e), (scaled_den_neg q e) by lia.
  set (n := 2 ^ (- e)).
  assert (Hn : 0 < n) by (apply Z.pow_pos_nonneg; lia).
  (* the rounded mantissa lies between [t * n] and [(t + 1) * n] *)
  assert (HK : (p / q) * n <= round_half_even (p * n) q < (p / q + 1) * n).
  { destruct (Z.le_gt_cases (- 1074) e1) as [Hun|Hcl].
    - apply round_scaled_between; try lia.
      assert (e = e1) as Ee by (unfold e; lia).
      unfold n. rewrite Ee. nia.
    - assert (Ee : e = - 1074) by (unfold e; lia).
      assert (Hb : a + 1022 <= b) by (unfold e0 in *; lia).
      assert (Hq2 : 2 ^ (a + 1) * 2 ^ 1021 <= q).
      { rewrite <- Z.pow_add_r by lia.
        etransitivity; [|exact Hb1]. apply Z.pow_le_mono_r; lia. }
      assert (En : n = 2 ^ 1074) by (unfold n; rewrite Ee; reflexivity).
      assert (Hlt : p * n < 2 ^ 53 * q).
      { rewrite En. change (2 ^ 1074) with (2 ^ 53 * 2 ^ 1021).
        assert (0 < 2 ^ 1021) by (apply Z.pow_pos_nonneg; lia).
        assert (0 < 2 ^ 53) by (apply Z.pow_pos_nonneg; lia).
        nia. }
      destruct (round_half_even_bounds (p * n) q) as [[Hlo Hhi] _]; [nia|lia|].
      assert (HF : p * n / q < 2 ^ 53) by (apply Z.div_lt_upper_bound; lia).
      assert (Ht : p / q = 0).
      { apply Z.div_small. split; [lia|].
        assert (2 ^ 53 < n) by (rewrite En; apply Z.pow_lt_mono_r; lia).
        assert (0 < 2 ^ 53) by (apply Z.pow_pos_nonneg; lia). nia. }
      rewrite Ht. split.
      + assert (0 <= p * n / q) by (apply Z.div_pos; nia). lia.
      + assert (2 ^ 53 + 1 < n) by (rewrite En; vm_compute; reflexivity). lia. }
  set (m0 := round_half_even (p * n) q) in *.
  assert (Ht0 : 0 <= p / q) by (apply Z.div_pos; lia).
  destruct (Z.eqb_spec m0 (2 ^ 53)) as [Em|Em].
  - split; [apply Z.pow_nonneg; lia|]. split; [lia|].
    destruct (Z.leb_spec 0 (e + 1)) as [Hpos|Hneg].
    + assert (e = 0 \/ e = -1) as [E0|E0] by lia.
      * unfold n in HK. rewrite E0 in *. simpl in HK. change (2 ^ (0 + 1)) with 2. lia.
      * unfold n in HK. rewrite E0 in *. change (2 ^ (- (-1))) with 2 in HK.
        change (2 ^ (-1 + 1)) with 1. lia.
    + symmetry. apply Z.div_unique_pos with (r := 2 ^ 52 - (p / q) * 2 ^ (- (e + 1))).
      2: lia.
      assert (En : n = 2 * 2 ^ (- (e + 1))).
      { unfold n. replace (- e) with (1 + - (e + 1)) by lia.
        rewrite Z.pow_add_r by lia. reflexivity. }
      assert (0 < 2 ^ (- (e + 1))) by (apply Z.pow_pos_nonneg; lia).
      change (2 ^ 53) with (2 * 2 ^ 52) in Em. nia.
  - split; [nia|]. split; [lia|].
    destruct (Z.leb_spec 0 e) as [Hpos|Hneg].
    + assert (e = 0) as E0 by lia. unfold n in HK. rewrite E0 in *. simpl in HK.
      change (2 ^ 0) with 1. lia.
    + fold n. symmetry. apply Z.div_unique_pos with (r := m0 - (p / q) * n); lia.
Qed.

Lemma float_of_ratio_small s p q :
  0 <= p < 2 ^ 53 → 0 < q →
  ∃ f, float_of_ratio s p q = Ok f
       ∧ int_of_float f = Ok (cond_Zopp s (p / q))
       ∧ (float_is_zero f = true → p / q = 0).
Proof.
  intros [Hp Hp53] Hq. unfold float_of_ratio.
  destruct (Z.eqb_spec p 0) as [->|Hne].
  - eexists. split; [reflexivity|]. simpl. rewrite Z.div_0_l by lia.
    split; [by destruct s|done].
  - pose proof (b64_round_small p q ltac:(lia) Hq) as H.
    destruct (b64_round p q) as [m e]. destruct H as (Hm & He & Ht).
    destruct m as [|m'|m']; [| |lia].
    + assert (H0 : p / q = 0).
      { rewrite <- Ht. destruct (0 <=? e); [apply Z.mul_0_l|apply Zdiv_0_l]. }
      eexists. split; [reflexivity|]. simpl. rewrite H0.
      split; [by destruct s|done].
    + assert ((e <=? emax - prec) = true) as -> by (apply Z.leb_le; unfold emax, prec; lia).
      eexists. split; [reflexivity|]. simpl. rewrite Ht. split; [reflexivity|done].
Qed.

(** [int(a / n)] is the quotient truncated toward zero as long as [a] is
    below [2^53] in magnitude. *)
Lemma int_truediv_trunc a n :
  Z.abs a < 2 ^ 53 → 0 < n →
  ∃ f, int_truediv a n = Ok f ∧ int_of_float f = Ok (a ÷ n).
Proof.
  intros Ha Hn. unfold int_truediv.
  destruct (Z.eqb_spec n 0) as [->|_]; [lia|].
  destruct (float_of_ratio_small (xorb (a <? 0) (n <? 0)) (Z.abs a) (Z.abs n))
    as (f & Hf & Hi & _); [lia|lia|].
  exists f. split; [exact Hf|]. rewrite Hi. f_equal.
  rewrite (Z.abs_eq n) by lia.
  assert ((n <? 0) = false) as -> by (apply Z.ltb_ge; lia).
  rewrite xorb_false_r.
  destruct (Z.ltb_spec a 0) as [Hneg|Hpos]; simpl.
  - rewrite Z.abs_neq by lia.
    rewrite <- (Z.quot_div_nonneg (- a) n), Z.quot_opp_l by lia. lia.
  - rewrite Z.abs_eq by lia. symmetry. apply Z.quot_div_nonneg; lia.
Qed.

(** [float(n)] exists for a positive [n] below [2^53] and is not zero. *)
Lemma float_of_int_small n :
  0 < n < 2 ^ 53 → ∃ f, float_of_int n = Ok f.
Proof.
  intros Hn. unfold float_of_int.
  destruct (float_of_ratio_small (n <? 0) (Z.abs n) 1) as (f & Hf & _); [lia|lia|].
  eauto.
Qed.

(** ** Sums, means and extrema of integers *)

Lemma py_sum_from_ints a zs :
  py_sum_from (VInt a) (VInt <$> zs) = Ok (VInt (a + Zsum zs)).
Proof.
  revert a. induction zs as [|z r IH]; intros a; simpl.
  - by rewrite Z.add_0_r.
  - cbv [mbind exc_bind]. rewrite IH. do 2 f_equal. lia.
Qed.

Lemma mean_int_ints zs :
  zs ≠ [] → Z.abs (Zsum zs) < 2 ^ 53 →
  _mean_int (VInt <$> zs) = Ok (VInt (Zsum zs ÷ Z.of_nat (length zs))).
Proof.
  intros Hne Hs. unfold _mean_int, py_sum. rewrite py_sum_from_ints. simpl.
  cbv [mbind exc_bind]. unfold py_len. rewrite length_fmap, Z.add_0_l. simpl.
  destruct (int_truediv_trunc (Zsum zs) (Z.of_nat (length zs))) as (f & -> & ->);
    [done| |done].
  destruct zs; [done|simpl; lia].
Qed.

Lemma py_lt_ints x y : py_lt (VInt x) (VInt y) = Ok (x <? y).
Proof.
  simpl. rewrite !Z.mul_1_r. unfold Z.ltb. by destruct (x ?= y).
Qed.

Lemma py_min_from_ints z zs :
  py_min_from (VInt z) (VInt <$> zs) = Ok (VInt (Zmin_list z zs)).
Proof.
  revert z. induction zs as [|x r IH]; intros z; [done|].
  cbn [fmap list_fmap py_min_from]. rewrite py_lt_ints. cbv [mbind exc_bind].
  unfold Zmin_list. simpl. fold (Zmin_list (Z.min z x) r).
  destruct (Z.ltb_spec x z).
  - rewrite IH. by rewrite Z.min_r by lia.
  - rewrite IH. by rewrite Z.min_l by lia.
Qed.

Lemma py_max_from_ints z zs :
  py_max_from (VInt z) (VInt <$> zs) = Ok (VInt (Zmax_list z zs)).
Proof.
  revert z. induction zs as [|x r IH]; intros z; [done|].
  cbn [fmap list_fmap py_max_from]. unfold py_gt. rewrite py_lt_ints.
  cbv [mbind exc_bind].
  unfold Zmax_list. simpl. fold (Zmax_list (Z.max z x) r).
  destruct (Z.ltb_spec z x).
  - rewrite IH. by rewrite Z.max_r by lia.
  - rewrite IH. by rewrite Z.max_l by lia.
Qed.

Lemma Zmin_list_least z zs :
  Zmin_list z zs ∈ z :: zs ∧ ∀ y, y ∈ z :: zs → Zmin_list z zs <= y.
Proof.
  revert z. induction zs as [|x r IH]; intros z; unfold Zmin_list; simpl.
  - split; [set_solver|]. intros y ->%list_elem_of_singleton. lia.
  - fold (Zmin_list (Z.min z x) r). destruct (IH (Z.min z x)) as [Hin Hle]. split.
    + apply elem_of_cons in Hin as [->|Hin]; [|set_solver].
      destruct (Z.min_spec z x) as [[_ ->]|[_ ->]]; set_solver.
    + intros y Hy. pose proof (Hle (Z.min z x) ltac:(set_solver)).
      apply elem_of_cons in Hy as [->|Hy]; [lia|].
      apply elem_of_cons in Hy as [->|Hy]; [lia|]. apply Hle. set_solver.
Qed.

Lemma Zmax_list_greatest z zs :
  Zmax_list z zs ∈ z :: zs ∧ ∀ y, y ∈ z :: zs → y <= Zmax_list z zs.
Proof.
  revert z. induction zs as [|x r IH]; intros z; unfold Zmax_list; simpl.
  - split; [set_solver|]. intros y ->%list_elem_of_singleton. lia.
  - fold (Zmax_list (Z.max z x) r). destruct (IH (Z.max z x)) as [Hin Hle]. split.
    + apply elem_of_cons in Hin as [->|Hin]; [|set_solver].
      destruct (Z.max_spec z x) as [[_ ->]|[_ ->]]; set_solver.
    + intros y Hy. pose proof (Hle (Z.max z x) ltac:(set_solver)).
      apply elem_of_cons in Hy as [->|Hy]; [lia|].
      apply elem_of_cons in Hy as [->|Hy]; [lia|]. apply Hle. set_solver.
Qed.

(** ** Means of colours *)

Lemma exc_map_iter_pairs (cs : list (pyval * pyval)) :
  exc_map py_iter (hs_pair <$> cs) = Ok ((fun c => [c.1; c.2]) <$> cs).
Proof.
  induction cs as [|c r IH]; [done|].
  cbn [fmap list_fmap exc_map] in *. rewrite IH. reflexivity.
Qed.

Lemma heads_pairs (cs : list (pyval * pyval)) :
  heads ((fun c => [c.1; c.2]) <$> cs) = Some (fst <$> cs, (fun c => [c.2]) <$> cs).
Proof.
  induction cs as [|c r IH]; [done|].
  cbn [fmap list_fmap heads] in *. by rewrite IH.
Qed.

Lemma heads_singletons (cs : list (pyval * pyval)) :
  heads ((fun c => [c.2]) <$> cs) = Some (snd <$> cs, (fun _ => []) <$> cs).
Proof.
  induction cs as [|c r IH]; [done|].
  cbn [fmap list_fmap heads] in *. by rewrite IH.
Qed.

(** [_mean_tuple] of pairs takes the mean of the first components and the
    mean of the second components. *)
Lemma mean_tuple_pairs (cs : list (pyval * pyval)) :
  cs ≠ [] →
  _mean_tuple (hs_pair <$> cs) =
  (mh ← column_mean (fst <$> cs); ms ← column_mean (snd <$> cs); Ok (VTuple [mh; ms])).
Proof.
  intros Hne. destruct cs as [|c r]; [done|].
  unfold _mean_tuple, py_zip. rewrite exc_map_iter_pairs.
  cbn [fmap list_fmap mbind exc_bind zip_lists fst snd].
  rewrite heads_pairs, heads_singletons. cbn [zip_lists exc_map mbind exc_bind].
  destruct (column_mean (c.1 :: (fst <$> r))); [|done].
  destruct (column_mean (c.2 :: (snd <$> r))); done.
Qed.

(** ** Reduction of one attribute *)

Lemma reduce_attribute_none sts key default reduce :
  _find_state_attributes sts key = [] →
  _reduce_attribute sts key default reduce = Ok default.
Proof. unfold _reduce_attribute. by intros ->. Qed.

Lemma reduce_attribute_one sts key default reduce v :
  _find_state_attributes sts key = [v] →
  _reduce_attribute sts key default reduce = Ok v.
Proof. unfold _reduce_attribute. by intros ->. Qed.

Lemma reduce_attribute_many sts key default reduce attrs :
  _find_state_attributes sts key = attrs →
  (2 <= length attrs)%nat →
  _reduce_attribute sts key default reduce = reduce attrs.
Proof.
  unfold _reduce_attribute. intros -> Hlen.
  destruct attrs as [|v [|w r]]; simpl in Hlen; [lia|lia|done].
Qed.

Section RecomputeValues.

Context (SUPPORT_BRIGHTNESS SUPPORT_COLOR_TEMP SUPPORT_EFFECT SUPPORT_FLASH
  SUPPORT_COLOR SUPPORT_TRANSITION SUPPORT_WHITE_VALUE : Z).
Context (list_of_set : list pyval -> list pyval).

Local Abbreviation update :=
  (async_update SUPPORT_BRIGHTNESS SUPPORT_COLOR_TEMP SUPPORT_EFFECT SUPPORT_FLASH
     SUPPORT_COLOR SUPPORT_TRANSITION SUPPORT_WHITE_VALUE list_of_set).

(** C6.  [_reduce_attribute] returns the default when no state defines
    the attribute and the value itself when one state does.  Over several
    integer values whose sum is below [2^53] in magnitude the default
    reducer returns their mean truncated toward zero (100 for 100 and
    101); over several colours [_mean_tuple] returns the mean of each
    component; [min] and [max] return the least and the greatest integer.
    [async_update] reduces brightness, white value, colour temperature and
    colour over the states that are on, with default [None], and the mired
    bounds over all known states, with defaults 154 and 500. *)
Theorem reduce_attribute_cases hass self :
  (∀ sts key default reduce,
     _find_state_attributes sts key = [] →
     _reduce_attribute sts key default reduce = Ok default)
  ∧ (∀ sts key default reduce v,
       _find_state_attributes sts key = [v] →
       _reduce_attribute sts key default reduce = Ok v)
  ∧ (∀ sts key default zs,
       _find_state_attributes sts key = VInt <$> zs →
       (2 <= length zs)%nat →
       Z.abs (Zsum zs) < 2 ^ 53 →
       _reduce_attribute sts key default _mean_int =
         Ok (VInt (Zsum zs ÷ Z.of_nat (length zs))))
  ∧ _mean_int [VInt 100; VInt 101] = Ok (VInt 100)
  ∧ (∀ sts key default cs,
       _find_state_attributes sts key = hs_pair <$> cs →
       (2 <= length cs)%nat →
       _reduce_attribute sts key default _mean_tuple =
         (mh ← column_mean (fst <$> cs);
          ms ← column_mean (snd <$> cs);
          Ok (VTuple [mh; ms])))
  ∧ (∀ sts key default z zs,
       _find_state_attributes sts key = VInt <$> (z :: zs) →
       zs ≠ [] →
       _reduce_attribute sts key default py_min = Ok (VInt (Zmin_list z zs))
       ∧ Zmin_list z zs ∈ z :: zs
       ∧ ∀ y, y ∈ z :: zs → Zmin_list z zs <= y)
  ∧ (∀ sts key default z zs,
       _find_state_attributes sts key = VInt <$> (z :: zs) →
       zs ≠ [] →
       _reduce_attribute sts key default py_max = Ok (VInt (Zmax_list z zs))
       ∧ Zmax_list z zs ∈ z :: zs
       ∧ ∀ y, y ∈ z :: zs → y <= Zmax_list z zs)
  ∧ (∀ self', update hass self = (self', Ok tt) →
       let sts := fst (_get_states_and_on_states self hass) in
       let on_states := snd (_get_states_and_on_states self hass) in
       _reduce_attribute on_states ATTR_BRIGHTNESS VNone _mean_int = Ok (_brightness self')
       ∧ _reduce_attribute on_states ATTR_HS_COLOR VNone _mean_tuple = Ok (_hs_color self')
       ∧ _reduce_attribute on_states ATTR_WHITE_VALUE VNone _mean_int
           = Ok (_white_value self')
       ∧ _reduce_attribute on_states ATTR_COLOR_TEMP VNone _mean_int
           = Ok (_color_temp self')
       ∧ _reduce_attribute sts ATTR_MIN_MIREDS (VInt 154) py_min = Ok (_min_mireds self')
       ∧ _reduce_attribute sts ATTR_MAX_MIREDS (VInt 500) py_max
           = Ok (_max_mireds self')).
Proof.
  split; [exact reduce_attribute_none|]. split; [exact reduce_attribute_one|].
  split; [|split; [|split; [|split; [|split]]]].
  - intros sts key default zs Hf Hlen Hs.
    rewrite (reduce_attribute_many _ _ _ _ _ Hf) by by rewrite length_fmap.
    apply mean_int_ints; [|done]. intros ->. simpl in Hlen. lia.
  - vm_compute. reflexivity.
  - intros sts key default cs Hf Hlen.
    rewrite (reduce_attribute_many _ _ _ _ _ Hf) by by rewrite length_fmap.
    apply mean_tuple_pairs. intros ->. simpl in Hlen. lia.
  - intros sts key default z zs Hf Hne. split; [|apply Zmin_list_least].
    rewrite (reduce_attribute_many _ _ _ _ _ Hf).
    + destruct zs as [|x r]; [done|]. apply (py_min_from_ints z (x :: r)).
    + destruct zs; [done|]. simpl. lia.
  - intros sts key default z zs Hf Hne. split; [|apply Zmax_list_greatest].
    rewrite (reduce_attribute_many _ _ _ _ _ Hf).
    + destruct zs as [|x r]; [done|]. apply (py_max_from_ints z (x :: r)).
    + destruct zs; [done|]. simpl. lia.
  - intros self' Hu. apply update_result in Hu.
    destruct (_get_states_and_on_states self hass) as [sts on_states]. simpl.
    destruct Hu as (H1 & H2 & H3 & H4 & H5 & H6 & _). done.
Qed.

End RecomputeValues.

(** ** Counting effects *)

Lemma count_str_app s l1 l2 :
  count_str s (l1 ++ l2) = (count_str s l1 + count_str s l2)%nat.
Proof. unfold count_str. by rewrite filter_app, length_app. Qed.

Lemma count_str_cons s x l :
  count_str s (x :: l) = ((if decide (x = s) then 1 else 0) + count_str s l)%nat.
Proof. unfold count_str. rewrite filter_cons. by case_decide. Qed.

Lemma count_str_pos s l : s ∈ l → (0 < count_str s l)%nat.
Proof.
  induction l as [|x r IH]; [by intros ?%elem_of_nil|].
  rewrite count_str_cons. intros [->|Hin]%elem_of_cons.
  - rewrite decide_True by done. lia.
  - specialize (IH Hin). lia.
Qed.

Lemma str_entries_cons k n r :
  str_entries ((k, n) :: r) = (VStr k, n) :: str_entries r.
Proof. reflexivity. Qed.

Lemma str_entries_app l1 l2 :
  str_entries (l1 ++ l2) = (str_entries l1 ++ str_entries l2)%list.
Proof. unfold str_entries. apply fmap_app. Qed.

Lemma counter_incr_new cs x :
  x ∉ cs.*1 →
  counter_incr (str_entries cs) (VStr x) = str_entries (cs ++ [(x, 1%nat)]).
Proof.
  induction cs as [|[k n] r IH]; intros Hx; [done|].
  rewrite <- app_comm_cons, !str_entries_cons. cbn [counter_incr py_eqb].
  rewrite bool_decide_eq_false_2 by set_solver.
  rewrite IH by set_solver. reflexivity.
Qed.

Lemma counter_incr_old cs1 x n cs2 :
  x ∉ cs1.*1 →
  counter_incr (str_entries (cs1 ++ (x, n) :: cs2)) (VStr x) =
  str_entries (cs1 ++ (x, S n) :: cs2).
Proof.
  induction cs1 as [|[k m] r IH]; intros Hx.
  - cbn [app]. rewrite !str_entries_cons. cbn [counter_incr py_eqb].
    by rewrite bool_decide_eq_true_2.
  - rewrite <- !app_comm_cons, !str_entries_cons. cbn [counter_incr py_eqb].
    rewrite bool_decide_eq_false_2 by set_solver.
    rewrite IH by set_solver. reflexivity.
Qed.

Lemma first_seen_snoc ss x :
  first_seen (ss ++ [x]) =
  if decide (x ∈ first_seen ss) then first_seen ss else (first_seen ss ++ [x])%list.
Proof. unfold first_seen, seen_from. by rewrite fold_left_app. Qed.

Lemma first_seen_elem ss s : s ∈ first_seen ss ↔ s ∈ ss.
Proof.
  induction ss as [|x r IH] using rev_ind; [done|].
  rewrite first_seen_snoc. case_decide; set_solver.
Qed.

Lemma first_seen_NoDup ss : NoDup (first_seen ss).
Proof.
  induction ss as [|x r IH] using rev_ind; [constructor|].
  rewrite first_seen_snoc. case_decide; [done|].
  apply NoDup_app. split; [done|]. split; [set_solver|apply NoDup_singleton].
Qed.

(** A key of [first_seen ss] first occurs in [ss] after every string that
    first occurs before it did. *)
Lemma first_seen_split ss k1 e k2 :
  first_seen ss = (k1 ++ e :: k2)%list →
  ∃ pre post, ss = (pre ++ e :: post)%list ∧ (e ∉ pre) ∧ (∀ s, s ∈ pre → s ∈ k1).
Proof.
  revert k2. induction ss as [|x r IH] using rev_ind; intros k2 Hs.
  - by destruct k1.
  - rewrite first_seen_snoc in Hs. case_decide as Hx.
    + destruct (IH _ Hs) as (pre & post & -> & Hpre & Hk).
      exists pre, (post ++ [x])%list. by rewrite <- app_assoc.
    + destruct k2 as [|y k2' _] using rev_ind.
      * apply app_inj_tail in Hs as [Hr ->]. exists r, [].
        split; [done|]. split; [by rewrite <- first_seen_elem|].
        intros s Hin. rewrite <- Hr. by apply first_seen_elem.
      * rewrite app_comm_cons, app_assoc in Hs.
        apply app_inj_tail in Hs as [Hr ->].
        destruct (IH _ Hr) as (pre & post & -> & Hpre & Hk).
        exists pre, (post ++ [y])%list. by rewrite <- app_assoc.
Qed.

Lemma count_str_notin s l : s ∉ l → count_str s l = 0%nat.
Proof.
  induction l as [|x r IH]; [done|]. intros Hn. rewrite count_str_cons.
  rewrite decide_False by set_solver. rewrite IH by set_solver. done.
Qed.

Lemma count_str_snoc s l x :
  count_str s (l ++ [x]) = (count_str s l + if decide (x = s) then 1 else 0)%nat.
Proof.
  rewrite count_str_app, count_str_cons. change (count_str s []) with 0%nat.
  case_decide; lia.
Qed.

Lemma counter_update_snoc c l x :
  counter_update c (l ++ [x]) =
  match counter_update c l with
  | Ok c' => if py_hashable x then Ok (counter_incr c' x) else Raise TypeError
  | Raise e => Raise e
  end.
Proof.
  revert c. induction l as [|y r IH]; intros c; simpl.
  - by destruct (py_hashable x).
  - destruct (py_hashable y); [apply IH|done].
Qed.

(** A counter fed with strings holds their numbers of occurrences, its
    keys in order of first occurrence. *)
Lemma Counter_strs ss :
  ∃ cs, Counter (VStr <$> ss) = Ok (str_entries cs)
        ∧ cs.*1 = first_seen ss
        ∧ ∀ k n, (k, n) ∈ cs → n = count_str k ss.
Proof.
  induction ss as [|x r IH] using rev_ind.
  - exists []. split; [done|]. split; [done|]. by intros k n ?%elem_of_nil.
  - destruct IH as (cs & Hc & Hk & Hn). unfold Counter in *.
    rewrite fmap_app. cbn [fmap list_fmap]. rewrite counter_update_snoc, Hc.
    cbn [py_hashable]. rewrite first_seen_snoc, <- Hk.
    pose proof (first_seen_NoDup r) as Hnd. rewrite <- Hk in Hnd.
    case_decide as Hx.
    + apply list_elem_of_split_l in Hx as (ks1 & ks2 & Hs & Hx1).
      apply fmap_app_inv in Hs as (cs1 & cs' & -> & Hs & ->).
      symmetry in Hs. apply fmap_cons_inv in Hs as ([x' n] & cs2 & Ex & -> & ->).
      simpl in Ex. subst x'.
      exists (cs1 ++ (x, S n) :: cs2)%list.
      split; [by rewrite counter_incr_old|].
      split; [by rewrite !fmap_app|].
      rewrite fmap_app, fmap_cons in Hnd. simpl in Hnd.
      apply NoDup_app in Hnd as (_ & Hd1 & Hd2). apply NoDup_cons in Hd2 as [Hx2 _].
      intros k m Hin. rewrite count_str_snoc.
      apply elem_of_app in Hin as [Hin|Hin]; [|apply elem_of_cons in Hin as [Hin|Hin]].
      * rewrite decide_False.
        -- rewrite (Hn k m) by set_solver. lia.
        -- intros ->. apply Hx1. apply list_elem_of_fmap. by exists (k, m).
      * injection Hin as -> ->. rewrite decide_True by done.
        pose proof (Hn x n ltac:(set_solver)). lia.
      * rewrite decide_False.
        -- rewrite (Hn k m) by set_solver. lia.
        -- intros ->. apply Hx2. apply list_elem_of_fmap. by exists (k, m).
    + exists (cs ++ [(x, 1%nat)])%list.
      split; [by rewrite counter_incr_new|].
      split; [by rewrite fmap_app|].
      intros k m Hin. rewrite count_str_snoc.
      apply elem_of_app in Hin as [Hin|Hin].
      * rewrite decide_False.
        -- rewrite (Hn k m) by done. lia.
        -- intros ->. apply Hx. apply list_elem_of_fmap. by exists (k, m).
      * apply list_elem_of_singleton in Hin. injection Hin as -> ->.
        rewrite decide_True by done. rewrite count_str_notin; [lia|].
        rewrite <- first_seen_elem, <- Hk. done.
Qed.

(** [max_count_from] returns the first entry with the largest count. *)
Lemma max_count_from_split c1 best c2 r :
  (∀ kn, kn ∈ c1 → (kn.2 < best.2)%nat) →
  (∀ kn, kn ∈ c2 → (kn.2 <= best.2)%nat) →
  ∃ c1' c2',
    (c1 ++ best :: c2 ++ r)%list = (c1' ++ max_count_from best r :: c2')%list
    ∧ (∀ kn, kn ∈ c1' → (kn.2 < (max_count_from best r).2)%nat)
    ∧ (∀ kn, kn ∈ c2' → (kn.2 <= (max_count_from best r).2)%nat).
Proof.
  revert c1 best c2. induction r as [|x r IH]; intros c1 best c2 H1 H2.
  - exists c1, c2. by rewrite app_nil_r.
  - cbn [max_count_from]. destruct (Nat.ltb_spec best.2 x.2) as [Hlt|Hge].
    + destruct (IH (c1 ++ best :: c2)%list x []) as (c1' & c2' & Heq & Ha & Hb).
      * intros kn Hin. apply elem_of_app in Hin as [Hin|Hin];
          [|apply elem_of_cons in Hin as [->|Hin]].
        -- specialize (H1 _ Hin). lia.
        -- lia.
        -- specialize (H2 _ Hin). lia.
      * by intros kn ?%elem_of_nil.
      * exists c1', c2'. split; [|done]. rewrite <- Heq.
        rewrite <- !app_assoc. reflexivity.
    + destruct (IH c1 best (c2 ++ [x])%list) as (c1' & c2' & Heq & Ha & Hb).
      * done.
      * intros kn Hin. apply elem_of_app in Hin as [Hin|Hin]; [by apply H2|].
        apply list_elem_of_singleton in Hin as ->. lia.
      * exists c1', c2'. split; [|done]. rewrite <- Heq.
        rewrite <- !app_assoc. reflexivity.
Qed.

(** The most common of a non-empty list of strings, the first encountered
    among equally frequent ones. *)
Lemma most_common_strs ss :
  ss ≠ [] →
  ∃ cs e n rest,
    Counter (VStr <$> ss) = Ok cs
    ∧ most_common_1 cs = (VStr e, n) :: rest
    ∧ (∀ s, (count_str s ss <= count_str e ss)%nat)
    ∧ ∃ pre post, ss = (pre ++ e :: post)%list ∧ (e ∉ pre)
        ∧ ∀ s, s ∈ pre → (count_str s ss < count_str e ss)%nat.
Proof.
  intros Hne. destruct (Counter_strs ss) as (cs & Hc & Hk & Hn).
  destruct cs as [|[k0 n0] r].
  { destruct ss as [|x ss] using rev_ind; [done|].
    rewrite first_seen_snoc in Hk. case_decide as Hx.
    - rewrite <- Hk in Hx. by apply elem_of_nil in Hx.
    - by destruct (first_seen ss). }
  destruct (max_count_from_split [] (VStr k0, n0) [] (str_entries r))
    as (c1 & c2 & Heq & H1 & H2); [by intros ? ?%elem_of_nil..|].
  cbn [app] in Heq.
  change ((VStr k0, n0) :: str_entries r) with (str_entries ((k0, n0) :: r)) in Heq.
  apply fmap_app_inv in Heq as (d1 & d' & -> & Heq & Hcs).
  symmetry in Heq. apply fmap_cons_inv in Heq as ([e n] & d2 & Hm & -> & ->).
  cbn [fst snd] in Hm.
  exists (str_entries ((k0, n0) :: r)), e, n, []. split; [exact Hc|].
  split; [rewrite str_entries_cons; cbn [most_common_1]; by rewrite Hm|].
  rewrite Hm in H1, H2. cbn [snd] in H1, H2.
  assert (Hcount : ∀ k m, (k, m) ∈ (k0, n0) :: r → m = count_str k ss) by exact Hn.
  rewrite Hcs in Hcount, Hk.
  assert (Hen : n = count_str e ss) by (apply Hcount; set_solver).
  split.
  - intros s. destruct (decide (s ∈ ss)) as [Hin|Hnin].
    + apply first_seen_elem in Hin. rewrite <- Hk in Hin.
      apply list_elem_of_fmap in Hin as ([s' m] & -> & Hin). cbn [fst].
      rewrite <- (Hcount s' m Hin), <- Hen.
      apply elem_of_app in Hin as [Hin|Hin];
        [|apply elem_of_cons in Hin as [Hin|Hin]].
      * specialize (H1 (VStr s', m)). cbn [snd] in H1.
        assert ((VStr s', m) ∈ (λ p : string * nat, (VStr p.1, p.2)) <$> d1)
          by (apply list_elem_of_fmap; by exists (s', m)).
        specialize (H1 ltac:(done)). lia.
      * injection Hin as -> ->. lia.
      * specialize (H2 (VStr s', m)). cbn [snd] in H2. apply H2.
        apply list_elem_of_fmap. by exists (s', m).
    + rewrite (count_str_notin s ss) by done. lia.
  - rewrite fmap_app, fmap_cons in Hk. cbn [fst] in Hk. symmetry in Hk.
    destruct (first_seen_split _ _ _ _ Hk) as (pre & post & -> & Hpre & Hin).
    exists pre, post. split; [done|]. split; [done|].
    intros s Hs. apply Hin in Hs.
    apply list_elem_of_fmap in Hs as ([s' m] & -> & Hs). cbn [fst].
    rewrite <- (Hcount s' m) by set_solver. rewrite <- Hen.
    specialize (H1 (VStr s', m)). cbn [snd] in H1. apply H1.
    apply list_elem_of_fmap. by exists (s', m).
Qed.

Lemma effect_of_reported sts all_effects :
  _find_state_attributes sts ATTR_EFFECT = all_effects →
  all_effects ≠ [] →
  effect_of sts =
  (effects_count ← Counter all_effects;
   match most_common_1 effects_count with
   | [] => Raise IndexError
   | (e, _) :: _ => Ok e
   end).
Proof. unfold effect_of. intros -> Hne. by destruct all_effects. Qed.

Lemma find_state_attributes_cons st sts key :
  _find_state_attributes (st :: sts) key =
  match attributes_get st key with
  | VNone => _find_state_attributes sts key
  | v => v :: _find_state_attributes sts key
  end.
Proof.
  unfold _find_state_attributes. cbn [omap list_omap].
  by destruct (attributes_get st key).
Qed.

Lemma find_effects_typed sts :
  (∀ st, st ∈ sts → effect_typed st) →
  _find_state_attributes sts ATTR_EFFECT = VStr <$> omap effect_name sts.
Proof.
  induction sts as [|st r IH]; intros Ht; [done|].
  rewrite find_state_attributes_cons, IH
    by (intros st' Hin; apply Ht; set_solver).
  pose proof (Ht st ltac:(set_solver)) as Hst.
  unfold effect_typed in Hst. cbn [omap list_omap]. unfold attributes_get, effect_name.
  destruct (attributes st !! ATTR_EFFECT) as [[]|]; simpl in *; done.
Qed.

Section RecomputeEffect.

Context (SUPPORT_BRIGHTNESS SUPPORT_COLOR_TEMP SUPPORT_EFFECT SUPPORT_FLASH
  SUPPORT_COLOR SUPPORT_TRANSITION SUPPORT_WHITE_VALUE : Z).
Context (list_of_set : list pyval -> list pyval).

Local Abbreviation update :=
  (async_update SUPPORT_BRIGHTNESS SUPPORT_COLOR_TEMP SUPPORT_EFFECT SUPPORT_FLASH
     SUPPORT_COLOR SUPPORT_TRANSITION SUPPORT_WHITE_VALUE list_of_set).

(** C7.  Take the members whose known state is on, in the order in which
    they are listed, and let [ss] be the effects they report (each absent,
    [None] or a string).  The effect step of the recomputation returns,
    and a recomputation that returns stores its result in [_effect]:
    [None] when [ss] is empty; otherwise a string of [ss] that occurs at
    least as often as any other and strictly more often than every string
    met before its first occurrence, so that among the most frequent ones
    the first met wins; for [A, B, A] it is [A]. *)
Theorem effect_most_common hass self :
  let on_states :=
    filter (fun st => state st = STATE_ON) (states_of hass (_entity_ids self)) in
  let ss := omap effect_name on_states in
  (∀ st, st ∈ on_states → effect_typed st) →
  ∃ r,
    effect_of (snd (_get_states_and_on_states self hass)) = Ok r
    ∧ (∀ self', update hass self = (self', Ok tt) → _effect self' = r)
    ∧ (ss = [] → r = VNone)
    ∧ (ss ≠ [] →
       ∃ e, r = VStr e
            ∧ (∀ s, (count_str s ss <= count_str e ss)%nat)
            ∧ ∃ pre post, ss = (pre ++ e :: post)%list ∧ (e ∉ pre)
                ∧ ∀ s, s ∈ pre → (count_str s ss < count_str e ss)%nat)
  ∧ (∀ a b, ss = [a; b; a] → r = VStr a).
Proof.
  intros on_states ss Ht.
  assert (Hon : snd (_get_states_and_on_states self hass) = on_states) by reflexivity.
  assert (Hf : _find_state_attributes on_states ATTR_EFFECT = VStr <$> ss)
    by (by apply find_effects_typed).
  rewrite Hon.
  assert (Hupd : ∀ r, effect_of on_states = Ok r →
            ∀ self', update hass self = (self', Ok tt) → _effect self' = r).
  { intros r Hr self' Hu. apply update_result in Hu. rewrite <- Hon in Hr.
    destruct (_get_states_and_on_states self hass) as [sts on_states']. simpl in Hr.
    destruct Hu as (_ & _ & _ & _ & _ & _ & _ & He & _). congruence. }
  destruct ss as [|s0 ss0] eqn:Ess.
  - exists VNone.
    assert (He : effect_of on_states = Ok VNone) by (unfold effect_of; by rewrite Hf).
    split; [exact He|]. split; [by apply Hupd|]. split; [done|]. split; [done|].
    intros a b Hab. discriminate Hab.
  - rewrite <- Ess in *.
    assert (Hne : ss ≠ []) by (rewrite Ess; discriminate).
    destruct (most_common_strs ss Hne) as (cs & e & n & rest & Hc & Hm & Hmax & Hfirst).
    assert (He : effect_of on_states = Ok (VStr e)).
    { rewrite (effect_of_reported _ _ Hf) by (rewrite Ess; discriminate).
      rewrite Hc. cbv [mbind exc_bind]. by rewrite Hm. }
    exists (VStr e). split; [exact He|]. split; [by apply Hupd|].
    split; [intros E; by rewrite E in Hne|].
    split; [intros _; exists e; split; [done|split; [exact Hmax|exact Hfirst]]|].
    intros a b Hab. rewrite Hab in Hmax, Hfirst.
    destruct Hfirst as (pre & post & Hsplit & Hnin & Hlt).
    f_equal. destruct pre as [|p0 pre].
    + by injection Hsplit as <- _.
    + injection Hsplit as <- Hrest.
      destruct pre as [|p1 pre].
      * injection Hrest as <- _.
        specialize (Hlt a ltac:(set_solver)).
        assert (Hba : b ≠ a) by set_solver.
        exfalso. unfold count_str in Hlt.
        rewrite !filter_cons, filter_nil in Hlt.
        repeat case_decide; simplify_eq; simpl in *; lia.
      * injection Hrest as <- Hrest. destruct pre as [|p2 pre].
        -- injection Hrest as <- _. exfalso. apply Hnin. set_solver.
        -- injection Hrest as <- Hrest. by destruct pre.
Qed.

End RecomputeEffect.

(** ** The union of effect lists *)

Lemma seen_from_snoc acc ss x :
  seen_from acc (ss ++ [x]) =
  if decide (x ∈ seen_from acc ss) then seen_from acc ss
  else (seen_from acc ss ++ [x])%list.
Proof. unfold seen_from. by rewrite fold_left_app. Qed.

Lemma seen_from_elem acc ss s : s ∈ seen_from acc ss ↔ s ∈ acc ∨ s ∈ ss.
Proof.
  induction ss as [|x r IH] using rev_ind; [set_solver|].
  rewrite seen_from_snoc. case_decide; set_solver.
Qed.

Lemma seen_from_NoDup acc ss : NoDup acc → NoDup (seen_from acc ss).
Proof.
  intros Hacc. induction ss as [|x r IH] using rev_ind; [done|].
  rewrite seen_from_snoc. case_decide; [done|].
  apply NoDup_app. split; [done|]. split; [set_solver|apply NoDup_singleton].
Qed.

Lemma seen_from_NoDup_id ss : NoDup ss → seen_from [] ss = ss.
Proof.
  induction ss as [|x r IH] using rev_ind; [done|]. intros Hnd.
  apply NoDup_app in Hnd as (Hr & Hx & _). rewrite seen_from_snoc, IH by done.
  rewrite decide_False; [done|]. intros Hin. apply (Hx x Hin). set_solver.
Qed.

Lemma existsb_py_eqb_strs x us :
  existsb (py_eqb (VStr x)) (VStr <$> us) = bool_decide (x ∈ us).
Proof.
  induction us as [|u r IH]; [done|]. cbn [fmap list_fmap existsb py_eqb] in *.
  rewrite IH. destruct (decide (x = u)) as [->|Hne].
  - rewrite (bool_decide_eq_true_2 (u = u)) by done.
    rewrite (bool_decide_eq_true_2 (u ∈ u :: r)) by set_solver. done.
  - rewrite (bool_decide_eq_false_2 (x = u)) by done. simpl.
    apply bool_decide_ext. set_solver.
Qed.

Lemma set_update_strs us l :
  set_update (VStr <$> us) (VStr <$> l) = Ok (VStr <$> seen_from us l).
Proof.
  revert us. induction l as [|x r IH]; intros us; [done|].
  cbn [fmap list_fmap set_update set_add py_hashable mbind exc_bind].
  change (list_fmap string pyval VStr us) with (VStr <$> us).
  rewrite existsb_py_eqb_strs.
  change (list_fmap string pyval VStr r) with (VStr <$> r).
  unfold seen_from. cbn [fold_left]. fold (seen_from (if decide (x ∈ us) then us else (us ++ [x])%list) r).
  case_bool_decide as Hx.
  - rewrite decide_True by done. apply IH.
  - rewrite decide_False by done.
    change [VStr x] with (VStr <$> [x]). rewrite <- fmap_app. apply IH.
Qed.

Lemma set_union_strs us ls :
  set_union (VStr <$> us) (effect_names <$> ls) =
  Ok (VStr <$> fold_left seen_from ls us).
Proof.
  revert us. induction ls as [|l r IH]; intros us; [done|].
  cbn [fmap list_fmap set_union effect_names py_iter mbind exc_bind].
  change (list_fmap string pyval VStr l) with (VStr <$> l).
  change (list_fmap string pyval VStr us) with (VStr <$> us).
  rewrite set_update_strs. cbn [fold_left]. apply IH.
Qed.

Lemma union_elem us ls x :
  x ∈ fold_left seen_from ls us ↔ x ∈ us ∨ ∃ l, l ∈ ls ∧ x ∈ l.
Proof.
  revert us. induction ls as [|l r IH]; intros us; cbn [fold_left].
  - split; [by left|]. intros [H|(l & Hl & _)]; [done|by apply elem_of_nil in Hl].
  - rewrite IH, seen_from_elem. split.
    + intros [[H|H]|(l' & Hl & Hx)]; [by left|right; exists l; set_solver|].
      right. exists l'. set_solver.
    + intros [H|(l' & Hl & Hx)]; [by left; left|].
      apply elem_of_cons in Hl as [->|Hl]; [by left; right|].
      right. by exists l'.
Qed.

Lemma union_NoDup us ls : NoDup us → NoDup (fold_left seen_from ls us).
Proof.
  revert us. induction ls as [|l r IH]; intros us Hus; [done|].
  cbn [fold_left]. apply IH. by apply seen_from_NoDup.
Qed.

Section RecomputeEffectList.

Context (SUPPORT_BRIGHTNESS SUPPORT_COLOR_TEMP SUPPORT_EFFECT SUPPORT_FLASH
  SUPPORT_COLOR SUPPORT_TRANSITION SUPPORT_WHITE_VALUE : Z).
Context (list_of_set : list pyval -> list pyval).

Local Abbreviation update :=
  (async_update SUPPORT_BRIGHTNESS SUPPORT_COLOR_TEMP SUPPORT_EFFECT SUPPORT_FLASH
     SUPPORT_COLOR SUPPORT_TRANSITION SUPPORT_WHITE_VALUE list_of_set).

(** C8.  The recomputed [_effect_list] is [None] when no known state
    reports an effect list.  When the reported lists are lists of strings,
    it lists the strings that occur in some of them, each once, in the
    iteration order of the set.  When a single state reports a list, the
    result has the members of that list, and is an arrangement of it when
    the list has no repetition. *)
Theorem effect_list_union hass self :
  (∀ s, list_of_set s ≡ₚ s) →
  let sts := fst (_get_states_and_on_states self hass) in
  (_find_state_attributes sts ATTR_EFFECT_LIST = [] →
     effect_list_of list_of_set sts = Ok VNone)
  ∧ (∀ ls, ls ≠ [] →
       _find_state_attributes sts ATTR_EFFECT_LIST = effect_names <$> ls →
       ∃ r us, effect_list_of list_of_set sts = Ok (VList r)
               ∧ r ≡ₚ VStr <$> us
               ∧ NoDup us
               ∧ ∀ x, x ∈ us ↔ ∃ l, l ∈ ls ∧ x ∈ l)
  ∧ (∀ l, _find_state_attributes sts ATTR_EFFECT_LIST = [effect_names l] →
       ∃ r us, effect_list_of list_of_set sts = Ok (VList r)
               ∧ r ≡ₚ VStr <$> us
               ∧ NoDup us
               ∧ (∀ x, x ∈ us ↔ x ∈ l)
               ∧ (NoDup l → r ≡ₚ VStr <$> l))
  ∧ (∀ self', update hass self = (self', Ok tt) →
       effect_list_of list_of_set sts = Ok (_effect_list self')).
Proof.
  intros Hperm sts.
  assert (Hgen : ∀ ls, ls ≠ [] →
            _find_state_attributes sts ATTR_EFFECT_LIST = effect_names <$> ls →
            effect_list_of list_of_set sts =
              Ok (VList (list_of_set (VStr <$> fold_left seen_from ls [])))).
  { intros ls Hne Hf. unfold effect_list_of. rewrite Hf.
    pose proof (set_union_strs [] ls) as Hu. cbn [fmap list_fmap] in Hu.
    destruct ls as [|l ls']; [done|]. cbn [fmap list_fmap] in *.
    rewrite Hu. reflexivity. }
  split; [|split; [|split]].
  - unfold effect_list_of. by intros ->.
  - intros ls Hne Hf. eexists _, (fold_left seen_from ls []).
    split; [by apply Hgen|]. split; [apply Hperm|].
    split; [apply union_NoDup; constructor|].
    intros x. rewrite union_elem. split; [|by right].
    intros [H|H]; [by apply elem_of_nil in H|done].
  - intros l Hf. eexists _, (seen_from [] l).
    split; [by apply (Hgen [l])|]. split; [apply Hperm|].
    split; [apply seen_from_NoDup; constructor|]. split.
    + intros x. rewrite seen_from_elem. split; [|by right].
      intros [H|H]; [by apply elem_of_nil in H|done].
    + intros Hnd. cbn [fold_left]. rewrite seen_from_NoDup_id by done. apply Hperm.
  - intros self' Hu. apply update_result in Hu. subst sts.
    destruct (_get_states_and_on_states self hass) as [sts on_states]. simpl.
    by destruct Hu as (_ & _ & _ & _ & _ & _ & Hel & _).
Qed.

End RecomputeEffectList.

(** ** A member listed twice *)

Lemma states_of_cons hass y ids :
  states_of hass (y :: ids) =
  match states hass !! y with
  | Some st => st :: states_of hass ids
  | None => states_of hass ids
  end.
Proof.
  unfold states_of, hass_states_get. cbn [fmap list_fmap omap list_omap].
  by destruct (states hass !! y).
Qed.


Lemma perm_ints_inv vals zs :
  vals ≡ₚ VInt <$> zs → ∃ zs', vals = VInt <$> zs' ∧ zs' ≡ₚ zs.
Proof.
  intros H. symmetry in H. remember (VInt <$> zs) as l eqn:El.
  revert zs El. induction H as [|v l l' H IH|v w l|l l' l'' H1 IH1 H2 IH2];
    intros zs El.
  - exists []. by destruct zs.
  - destruct zs as [|z zs1]; [done|]. injection El as -> ->.
    destruct (IH zs1 eq_refl) as (zs' & -> & Hp). exists (z :: zs').
    split; [done|]. by constructor.
  - destruct zs as [|a [|b zs1]]; [done..|]. injection El as -> -> ->.
    exists (b :: a :: zs1). split; [done|]. apply perm_swap.
  - destruct (IH1 zs El) as (zs1 & -> & Hp1).
    destruct (IH2 zs1 eq_refl) as (zs2 & -> & Hp2).
    exists zs2. split; [done|]. by etransitivity.
Qed.

Lemma Zsum_perm zs zs' : zs ≡ₚ zs' → Zsum zs = Zsum zs'.
Proof.
  induction 1 as [|z l l' H IH|a b l|l l' l'' H1 IH1 H2 IH2]; simpl; lia.
Qed.


(** ** Recomputation on well-typed states *)

Lemma reduce_mean_int_typed sts key zs :
  _find_state_attributes sts key = VInt <$> zs →
  Z.abs (Zsum zs) < 2 ^ 53 →
  ∃ v, _reduce_attribute sts key VNone _mean_int = Ok v.
Proof.
  intros Hf Hs. destruct zs as [|z [|z' r]].
  - eexists. by apply reduce_attribute_none.
  - eexists. by apply (reduce_attribute_one _ _ _ _ (VInt z)).
  - eexists. rewrite (reduce_attribute_many _ _ _ _ _ Hf) by (simpl; lia).
    by apply mean_int_ints.
Qed.

Lemma reduce_min_typed sts key default zs :
  _find_state_attributes sts key = VInt <$> zs →
  ∃ v, _reduce_attribute sts key default py_min = Ok v.
Proof.
  intros Hf. destruct zs as [|z [|z' r]].
  - eexists. by apply reduce_attribute_none.
  - eexists. by apply (reduce_attribute_one _ _ _ _ (VInt z)).
  - eexists. rewrite (reduce_attribute_many _ _ _ _ _ Hf) by (simpl; lia).
    apply (py_min_from_ints z (z' :: r)).
Qed.

Lemma reduce_max_typed sts key default zs :
  _find_state_attributes sts key = VInt <$> zs →
  ∃ v, _reduce_attribute sts key default py_max = Ok v.
Proof.
  intros Hf. destruct zs as [|z [|z' r]].
  - eexists. by apply reduce_attribute_none.
  - eexists. by apply (reduce_attribute_one _ _ _ _ (VInt z)).
  - eexists. rewrite (reduce_attribute_many _ _ _ _ _ Hf) by (simpl; lia).
    apply (py_max_from_ints z (z' :: r)).
Qed.

Lemma py_sum_from_floats f fs :
  ∃ g, py_sum_from (VFloat f) (VFloat <$> fs) = Ok (VFloat g).
Proof.
  revert f. induction fs as [|x r IH]; intros f; [by eexists|].
  cbn [fmap list_fmap py_sum_from py_add mbind exc_bind]. apply IH.
Qed.

Lemma column_mean_floats fs :
  fs ≠ [] → Z.of_nat (length fs) < 2 ^ 53 →
  ∃ m, column_mean (VFloat <$> fs) = Ok m.
Proof.
  intros Hne Hlen. destruct fs as [|f r]; [done|].
  unfold column_mean, py_sum.
  cbn [fmap list_fmap py_sum_from py_add].
  change (float_of_int 0) with (@Ok spec_float (S754_zero false)).
  cbn [mbind exc_bind].
  destruct (py_sum_from_floats (float_add (S754_zero false) f) r) as (g & Hg).
  change (list_fmap spec_float pyval VFloat r) with (VFloat <$> r). rewrite Hg.
  unfold py_len, py_truediv. cbn [length] in *.
  rewrite length_fmap.
  destruct (Z.eqb_spec (Z.of_nat (S (length r))) 0) as [E|_]; [lia|].
  destruct (float_of_int_small (Z.of_nat (S (length r)))) as (n & ->); [lia|].
  by eexists.
Qed.

Lemma reduce_mean_tuple_typed sts key cs :
  _find_state_attributes sts key = float_pair <$> cs →
  Z.of_nat (length cs) < 2 ^ 53 →
  ∃ v, _reduce_attribute sts key VNone _mean_tuple = Ok v.
Proof.
  intros Hf Hlen. destruct cs as [|c [|c' r]].
  - eexists. by apply reduce_attribute_none.
  - eexists. by apply (reduce_attribute_one _ _ _ _ (float_pair c)).
  - rewrite (reduce_attribute_many _ _ _ _ _ Hf) by (simpl; lia).
    set (fs := c :: c' :: r) in *.
    assert (Hp : float_pair <$> fs =
                 hs_pair <$> ((fun c => (VFloat c.1, VFloat c.2)) <$> fs)).
    { rewrite <- list_fmap_compose. reflexivity. }
    rewrite Hp, mean_tuple_pairs by done.
    rewrite <- !list_fmap_compose.
    change (fst ∘ (fun c : spec_float * spec_float => (VFloat c.1, VFloat c.2)))
      with (VFloat ∘ (@fst spec_float spec_float)).
    change (snd ∘ (fun c : spec_float * spec_float => (VFloat c.1, VFloat c.2)))
      with (VFloat ∘ (@snd spec_float spec_float)).
    rewrite !list_fmap_compose.
    destruct (column_mean_floats (fst <$> fs)) as (mh & ->);
      [done|by rewrite length_fmap|].
    destruct (column_mean_floats (snd <$> fs)) as (ms & ->);
      [done|by rewrite length_fmap|].
    by eexists.
Qed.

Lemma effect_of_typed sts ss :
  _find_state_attributes sts ATTR_EFFECT = VStr <$> ss →
  ∃ v, effect_of sts = Ok v.
Proof.
  intros Hf. destruct ss as [|s r].
  - exists VNone. unfold effect_of. by rewrite Hf.
  - destruct (most_common_strs (s :: r)) as (cs & e & n & rest & Hc & Hm & _); [done|].
    exists (VStr e). rewrite (effect_of_reported _ _ Hf) by done.
    rewrite Hc. cbv [mbind exc_bind]. by rewrite Hm.
Qed.

Lemma effect_list_of_typed list_of_set sts ls :
  _find_state_attributes sts ATTR_EFFECT_LIST = effect_names <$> ls →
  ∃ v, effect_list_of list_of_set sts = Ok v.
Proof.
  intros Hf. unfold effect_list_of. rewrite Hf.
  pose proof (set_union_strs [] ls) as Hu. cbn [fmap list_fmap] in Hu.
  destruct ls as [|l ls']; [by eexists|]. cbn [fmap list_fmap] in *.
  rewrite Hu. by eexists.
Qed.

(** ** No division by zero in the mean reducers *)

Lemma float_of_ratio_no_zero_division s p q :
  float_of_ratio s p q ≠ Raise ZeroDivisionError.
Proof.
  unfold float_of_ratio. destruct (p =? 0); [done|].
  destruct (b64_round p q) as [m e]. destruct m; [done| |done].
  by destruct (e <=? emax - prec).
Qed.

Lemma py_add_no_zero_division acc x : py_add acc x ≠ Raise ZeroDivisionError.
Proof.
  destruct acc, x; cbn [py_add]; try congruence; cbv [mbind exc_bind];
    unfold float_of_int;
    match goal with
    | |- context [float_of_ratio ?s ?p ?q] =>
        pose proof (float_of_ratio_no_zero_division s p q);
        destruct (float_of_ratio s p q); congruence
    end.
Qed.

Lemma py_add_number acc x v : is_number acc → py_add acc x = Ok v → is_number v.
Proof.
  destruct acc, x; cbn [py_add is_number]; try done; cbv [mbind exc_bind];
    try (destruct (float_of_int _); [|done]); by intros _ [= <-].
Qed.

Lemma py_sum_from_no_zero_division acc l :
  py_sum_from acc l ≠ Raise ZeroDivisionError.
Proof.
  revert acc. induction l as [|x r IH]; intros acc; simpl; [done|].
  cbv [mbind exc_bind]. pose proof (py_add_no_zero_division acc x).
  destruct (py_add acc x); [apply IH|done].
Qed.

Lemma py_sum_from_number acc l v :
  is_number acc → py_sum_from acc l = Ok v → is_number v.
Proof.
  revert acc. induction l as [|x r IH]; intros acc Hacc; simpl.
  - by intros [= <-].
  - cbv [mbind exc_bind]. destruct (py_add acc x) as [a|] eqn:E; [|done].
    apply IH. by apply (py_add_number acc x).
Qed.

Lemma py_truediv_no_zero_division s n :
  is_number s → n ≠ 0 → py_truediv s (VInt n) ≠ Raise ZeroDivisionError.
Proof.
  intros Hs Hn. destruct s; try done; cbn [py_truediv].
  - unfold int_truediv. destruct (Z.eqb_spec n 0); [done|].
    apply float_of_ratio_no_zero_division.
  - destruct (Z.eqb_spec n 0); [done|]. cbv [mbind exc_bind]. unfold float_of_int.
    pose proof (float_of_ratio_no_zero_division (n <? 0) (Z.abs n) 1).
    destruct (float_of_ratio (n <? 0) (Z.abs n) 1); congruence.
Qed.

Lemma mean_int_no_zero_division args :
  args ≠ [] → _mean_int args ≠ Raise ZeroDivisionError.
Proof.
  intros Hne. unfold _mean_int, py_sum. cbv [mbind exc_bind].
  pose proof (py_sum_from_no_zero_division (VInt 0) args).
  destruct (py_sum_from (VInt 0) args) as [s|] eqn:Es; [|congruence].
  assert (is_number s) by (by apply (py_sum_from_number (VInt 0) args)).
  pose proof (py_truediv_no_zero_division s (Z.of_nat (length args)) ltac:(done)
                ltac:(destruct args; [done|simpl; lia])) as Hd.
  unfold py_len in *.
  destruct (py_truediv s (VInt (Z.of_nat (length args)))) as [q|]; [|congruence].
  destruct q; cbn [int_of_float]; congruence.
Qed.

Lemma column_mean_no_zero_division l :
  l ≠ [] → column_mean l ≠ Raise ZeroDivisionError.
Proof.
  intros Hne. unfold column_mean, py_sum. cbv [mbind exc_bind].
  pose proof (py_sum_from_no_zero_division (VInt 0) l).
  destruct (py_sum_from (VInt 0) l) as [s|] eqn:Es; [|congruence].
  assert (is_number s) by (by apply (py_sum_from_number (VInt 0) l)).
  pose proof (py_truediv_no_zero_division s (Z.of_nat (length l)) ltac:(done)
                ltac:(destruct l; [done|simpl; lia])) as Hd.
  unfold py_len in *.
  destruct (py_truediv s (VInt (Z.of_nat (length l)))); congruence.
Qed.

Lemma zip_lists_nonempty first others col :
  col ∈ zip_lists first others → col ≠ [].
Proof.
  revert others. induction first as [|x r IH]; intros others; simpl.
  - by intros ?%elem_of_nil.
  - destruct (heads others) as [[hs tls]|]; [|by intros ?%elem_of_nil].
    intros [->|Hin]%elem_of_cons; [done|]. by apply (IH tls).
Qed.

Lemma exc_map_no_zero_division {A B} (f : A → exc B) l :
  (∀ x, x ∈ l → f x ≠ Raise ZeroDivisionError) →
  exc_map f l ≠ Raise ZeroDivisionError.
Proof.
  induction l as [|x r IH]; intros Hf; simpl; [done|]. cbv [mbind exc_bind].
  pose proof (Hf x ltac:(set_solver)). destruct (f x); [|congruence].
  assert (exc_map f r ≠ Raise ZeroDivisionError) by (apply IH; set_solver).
  destruct (exc_map f r); congruence.
Qed.

Lemma mean_tuple_no_zero_division args :
  _mean_tuple args ≠ Raise ZeroDivisionError.
Proof.
  unfold _mean_tuple, py_zip. cbv [mbind exc_bind].
  assert (Hit : exc_map py_iter args ≠ Raise ZeroDivisionError).
  { apply exc_map_no_zero_division. intros x _. destruct x; cbn [py_iter]; congruence. }
  destruct (exc_map py_iter args) as [its|]; [|congruence].
  destruct its as [|first others]; [cbn; congruence|].
  assert (Hc : exc_map column_mean (zip_lists first others) ≠ Raise ZeroDivisionError).
  { apply exc_map_no_zero_division. intros col Hin.
    apply column_mean_no_zero_division. by apply (zip_lists_nonempty first others). }
  destruct (exc_map column_mean (zip_lists first others)); congruence.
Qed.

Lemma find_state_attributes_length sts key :
  (length (_find_state_attributes sts key) <= length sts)%nat.
Proof.
  unfold _find_state_attributes. induction sts as [|st r IH]; [done|].
  cbn [omap list_omap]. destruct (attributes_get st key); simpl; lia.
Qed.

Lemma reduce_attribute_no_zero_division sts key default reduce :
  (∀ attrs, attrs ≠ [] → reduce attrs ≠ Raise ZeroDivisionError) →
  _reduce_attribute sts key default reduce ≠ Raise ZeroDivisionError.
Proof.
  intros Hr. unfold _reduce_attribute.
  destruct (_find_state_attributes sts key) as [|v [|w r]]; [congruence..|].
  by apply Hr.
Qed.

(** The reducer is applied to nothing but lists of two values or more. *)
Lemma reduce_attribute_ext sts key default reduce reduce' :
  (∀ attrs, (2 <= length attrs)%nat → reduce attrs = reduce' attrs) →
  _reduce_attribute sts key default reduce = _reduce_attribute sts key default reduce'.
Proof.
  intros Hr. unfold _reduce_attribute.
  destruct (_find_state_attributes sts key) as [|v [|w r]]; [done..|].
  apply Hr. simpl. lia.
Qed.

Section RecomputeTotal.

Context (SUPPORT_BRIGHTNESS SUPPORT_COLOR_TEMP SUPPORT_EFFECT SUPPORT_FLASH
  SUPPORT_COLOR SUPPORT_TRANSITION SUPPORT_WHITE_VALUE : Z).
Context (list_of_set : list pyval -> list pyval).

Local Abbreviation update :=
  (async_update SUPPORT_BRIGHTNESS SUPPORT_COLOR_TEMP SUPPORT_EFFECT SUPPORT_FLASH
     SUPPORT_COLOR SUPPORT_TRANSITION SUPPORT_WHITE_VALUE list_of_set).

(** C9, as amended.  On states whose attributes are absent or well typed,
    a recomputation returns without raising.  On any states whatever the
    mean reducers are applied to two values or more, and they never raise
    [ZeroDivisionError]. *)
Theorem update_total_on_well_typed hass self :
  well_typed (fst (_get_states_and_on_states self hass))
             (snd (_get_states_and_on_states self hass)) →
  (∃ self', update hass self = (self', Ok tt))
  ∧ (∀ sts key default reduce reduce',
       (∀ attrs, (2 <= length attrs)%nat → reduce attrs = reduce' attrs) →
       _reduce_attribute sts key default reduce =
       _reduce_attribute sts key default reduce')
  ∧ (∀ sts key default,
       _reduce_attribute sts key default _mean_int ≠ Raise ZeroDivisionError)
  ∧ (∀ sts key default,
       _reduce_attribute sts key default _mean_tuple ≠ Raise ZeroDivisionError).
Proof.
  intros Hwt. split; [|split; [|split]].
  - pose proof (update_total SUPPORT_BRIGHTNESS SUPPORT_COLOR_TEMP SUPPORT_EFFECT
                  SUPPORT_FLASH SUPPORT_COLOR SUPPORT_TRANSITION SUPPORT_WHITE_VALUE
                  list_of_set hass self) as Ht.
    destruct (_get_states_and_on_states self hass) as [sts on_states].
    cbn [fst snd] in Hwt.
    destruct Hwt as (Hint & (cs & Hhs) & Hmir & (ls & Hel) & (ss & He)
                     & (masks & Hsf) & Hlen).
    destruct (Hint ATTR_BRIGHTNESS ltac:(set_solver)) as (zb & Hb & Hbs).
    destruct (Hint ATTR_WHITE_VALUE ltac:(set_solver)) as (zw & Hw & Hws).
    destruct (Hint ATTR_COLOR_TEMP ltac:(set_solver)) as (zc & Hc & Hcs).
    destruct (Hmir ATTR_MIN_MIREDS ltac:(set_solver)) as (zmin & Hmin).
    destruct (Hmir ATTR_MAX_MIREDS ltac:(set_solver)) as (zmax & Hmax).
    destruct (reduce_mean_int_typed _ _ _ Hb Hbs) as (vb & Evb).
    destruct (reduce_mean_int_typed _ _ _ Hw Hws) as (vw & Evw).
    destruct (reduce_mean_int_typed _ _ _ Hc Hcs) as (vc & Evc).
    destruct (reduce_min_typed _ _ (VInt 154) _ Hmin) as (vmin & Evmin).
    destruct (reduce_max_typed _ _ (VInt 500) _ Hmax) as (vmax & Evmax).
    destruct (reduce_mean_tuple_typed _ _ _ Hhs) as (vhs & Evhs).
    { pose proof (find_state_attributes_length on_states ATTR_HS_COLOR) as Hle.
      rewrite Hhs, length_fmap in Hle. lia. }
    destruct (effect_list_of_typed list_of_set _ _ Hel) as (vel & Evel).
    destruct (effect_of_typed _ _ He) as (ve & Eve).
    eapply (Ht vb vhs vw vc vmin vmax vel ve); try eassumption.
    unfold supported_features_of. rewrite Hsf, or_all_ints. reflexivity.
  - exact reduce_attribute_ext.
  - intros sts key default. apply reduce_attribute_no_zero_division.
    exact mean_int_no_zero_division.
  - intros sts key default. apply reduce_attribute_no_zero_division.
    intros attrs _. apply mean_tuple_no_zero_division.
Qed.

End RecomputeTotal.

(** ** Behaviour on particular installations *)

(** Two lamps that are on and report a brightness that is not a number
    make the recomputation raise [TypeError]: [sum] cannot add a string to
    the integer 0. *)
Lemma async_update_raises_on_malformed :
  snd (async_update 1 2 4 8 16 32 128 (fun s => s) kitchen kitchen_group)
  = Raise TypeError.
Proof. vm_compute. reflexivity. Qed.

(** The quotient [sum / len] is a binary64 float.  Floats next to [2^53]
    are 2 apart, so 18014398509481987 / 2 rounds to 9007199254740994.0,
    while the mean truncated to an integer is 9007199254740993. *)
Lemma mean_int_inexact_above_2_53 :
  _brightness (fst (async_update 1 2 4 8 16 32 128 (fun s => s)
                      bright_room bright_room_group))
    = VInt 9007199254740994
  ∧ Zsum [9007199254740993; 9007199254740994] ÷ 2 = 9007199254740993.
Proof. split; vm_compute; reflexivity. Qed.

(** With the main light off, the auxiliary light on and a brightness in
    the call, toggling sends [light.turn_on] to the auxiliary light alone:
    the main light is not among the targets. *)
Lemma async_toggle_skips_main_lights :
  _main_lights_on hallway_updated = false
  ∧ _is_on hallway_updated = true
  ∧ service_calls (async_toggle hallway_updated {[ATTR_BRIGHTNESS := VInt 10]} hallway)
    = [{| domain := light_DOMAIN; service := light_SERVICE_TURN_ON;
          service_data :=
            <[ATTR_ENTITY_ID := entity_list ["light.hall_aux"]]>
              (turn_on_data {[ATTR_BRIGHTNESS := VInt 10]});
          blocking := true |}]
  ∧ "light.hall_main" ∉ ["light.hall_aux"].
Proof.
  split; [vm_compute; reflexivity|]. split; [vm_compute; reflexivity|].
  split; [|set_solver].
  assert (Hoff : _main_lights_on hallway_updated = false) by (vm_compute; reflexivity).
  assert (Hon : _is_on hallway_updated = true) by (vm_compute; reflexivity).
  unfold async_toggle, async_turn_on. rewrite Hoff, Hon. cbn [negb orb].
  assert (Hsz : bool_decide (size (turn_on_data {[ATTR_BRIGHTNESS := VInt 10]}) = 0%nat)
                = false) by (vm_compute; reflexivity).
  rewrite Hsz.
  assert (Ht : _get_turned_on_entities hallway_updated hallway = ["light.hall_aux"])
    by (vm_compute; reflexivity).
  rewrite Ht. reflexivity.
Qed.

Lemma effect_list_union_witness :
  (∀ s : list pyval, (fun s => s) s ≡ₚ s)
  ∧ _effect_list living_room_updated = VList [VStr "rainbow"; VStr "pulse"].
Proof.
  split; [reflexivity|].
  pose proof (effect_list_union 1 2 4 8 16 32 128 (fun s => s)
                living_room living_room_group (fun s => reflexivity s)) as H.
  destruct H as (_ & _ & _ & H).
  assert (Hu : async_update 1 2 4 8 16 32 128 (fun s => s) living_room living_room_group
               = (living_room_updated, Ok tt)) by (vm_compute; reflexivity).
  specialize (H living_room_updated Hu).
  apply (f_equal (fun r => match r with Ok v => v | Raise _ => VNone end)) in H.
  rewrite <- H. vm_compute. reflexivity.
Defined.

Lemma stage_effects_typed st :
  st ∈ filter (fun st => state st = STATE_ON) (states_of stage (_entity_ids stage_group)) →
  effect_typed st.
Proof.
  assert (E : filter (fun st => state st = STATE_ON)
                (states_of stage (_entity_ids stage_group))
              = [stage_lamp "light.left" STATE_ON "rainbow";
                 stage_lamp "light.centre" STATE_ON "pulse";
                 stage_lamp "light.right" STATE_ON "rainbow"])
    by (vm_compute; reflexivity).
  rewrite E. intros Hin.
  repeat (apply elem_of_cons in Hin as [->|Hin]); [..|by apply elem_of_nil in Hin];
    vm_compute; exact I.
Qed.

Lemma effect_most_common_witness :
  (∀ st, st ∈ filter (fun st => state st = STATE_ON)
                (states_of stage (_entity_ids stage_group)) → effect_typed st)
  ∧ omap effect_name
      (filter (fun st => state st = STATE_ON) (states_of stage (_entity_ids stage_group)))
    = ["rainbow"; "pulse"; "rainbow"]
  ∧ _effect (fst (async_update 1 2 4 8 16 32 128 (fun s => s) stage stage_group))
    = VStr "rainbow".
Proof.
  assert (Hss : omap effect_name
                  (filter (fun st => state st = STATE_ON)
                     (states_of stage (_entity_ids stage_group)))
                = ["rainbow"; "pulse"; "rainbow"]) by (vm_compute; reflexivity).
  split; [exact stage_effects_typed|]. split; [exact Hss|].
  destruct (effect_most_common 1 2 4 8 16 32 128 (fun s => s) stage stage_group
              stage_effects_typed) as (r & _ & Hu & _ & _ & Haba).
  rewrite (Hu (fst (async_update 1 2 4 8 16 32 128 (fun s => s) stage stage_group))
             ltac:(vm_compute; reflexivity)).
  exact (Haba "rainbow" "pulse" Hss).
Defined.

Lemma living_room_well_typed :
  well_typed (fst (_get_states_and_on_states living_room_group living_room))
             (snd (_get_states_and_on_states living_room_group living_room)).
Proof.
  unfold well_typed. split; [|split; [|split; [|split; [|split; [|split]]]]].
  - intros key Hkey. repeat (apply elem_of_cons in Hkey as [->|Hkey]).
    + exists [100; 101]. split; vm_compute; reflexivity.
    + exists []. split; vm_compute; reflexivity.
    + exists []. split; vm_compute; reflexivity.
    + by apply elem_of_nil in Hkey.
  - exists [(f10, f20); (f20, f20)]. vm_compute; reflexivity.
  - intros key Hkey. repeat (apply elem_of_cons in Hkey as [->|Hkey]).
    + exists [153; 200]. vm_compute; reflexivity.
    + exists [370; 454]. vm_compute; reflexivity.
    + by apply elem_of_nil in Hkey.
  - exists [["rainbow"; "pulse"]]. vm_compute; reflexivity.
  - exists ["rainbow"; "pulse"]. vm_compute; reflexivity.
  - exists [1023; 1; 4]. vm_compute; reflexivity.
  - vm_compute; reflexivity.
Qed.

Lemma update_total_on_well_typed_witness :
  well_typed (fst (_get_states_and_on_states living_room_group living_room))
             (snd (_get_states_and_on_states living_room_group living_room))
  ∧ ∃ self', async_update 1 2 4 8 16 32 128 (fun s => s) living_room living_room_group
             = (self', Ok tt).
Proof.
  split; [exact living_room_well_typed|].
  exact (proj1 (update_total_on_well_typed 1 2 4 8 16 32 128 (fun s => s)
                  living_room living_room_group living_room_well_typed)).
Defined.


(** * Further properties of the module *)

Lemma states_of_spec hass ids st :
  st ∈ states_of hass ids ↔ ∃ x, x ∈ ids ∧ states hass !! x = Some st.
Proof.
  unfold states_of. rewrite list_elem_of_omap. split.
  - intros (o & Ho & Hid). unfold id in Hid; subst o.
    apply list_elem_of_fmap in Ho as (x & Hx & Hin). eauto.
  - intros (x & Hin & Hx). exists (Some st). split; [|done].
    apply list_elem_of_fmap. exists x. unfold hass_states_get. eauto.
Qed.

Lemma existsb_elem {A} (f : A → bool) (l : list A) :
  existsb f l = true ↔ ∃ x, x ∈ l ∧ f x = true.
Proof.
  rewrite existsb_exists. split; intros (x & Hin & Hf); exists x;
    (split; [by apply list_elem_of_In|done]).
Qed.

Section Flags.

Context (SUPPORT_BRIGHTNESS SUPPORT_COLOR_TEMP SUPPORT_EFFECT SUPPORT_FLASH
  SUPPORT_COLOR SUPPORT_TRANSITION SUPPORT_WHITE_VALUE : Z).
Context (list_of_set : list pyval -> list pyval).

Local Abbreviation update :=
  (async_update SUPPORT_BRIGHTNESS SUPPORT_COLOR_TEMP SUPPORT_EFFECT SUPPORT_FLASH
     SUPPORT_COLOR SUPPORT_TRANSITION SUPPORT_WHITE_VALUE list_of_set).

Lemma is_on_spec hass self :
  _is_on (fst (update hass self)) = true ↔
  ∃ x st, x ∈ _entity_ids self ∧ states hass !! x = Some st ∧ state st = STATE_ON.
Proof.
  pose proof (update_flags SUPPORT_BRIGHTNESS SUPPORT_COLOR_TEMP SUPPORT_EFFECT
                SUPPORT_FLASH SUPPORT_COLOR SUPPORT_TRANSITION SUPPORT_WHITE_VALUE
                list_of_set hass self) as Hf.
  pose proof (on_states_spec self hass) as Hon.
  destruct (_get_states_and_on_states self hass) as [sts on_states].
  destruct Hf as (-> & _). cbn [snd] in Hon. rewrite bool_decide_eq_true. split.
  - intros Hlen. destruct on_states as [|st r]; [simpl in Hlen; lia|].
    destruct (proj1 (Hon st) ltac:(set_solver)) as (x & ? & ? & ?). eauto.
  - intros (x & st & Hin & Hx & Hs).
    assert (Hst : st ∈ on_states) by (apply Hon; eauto).
    destruct on_states; [by apply elem_of_nil in Hst|simpl; lia].
Qed.

Lemma available_spec hass self :
  _available (fst (update hass self)) = true ↔
  ∃ x st, x ∈ _entity_ids self ∧ states hass !! x = Some st
          ∧ state st ≠ STATE_UNAVAILABLE.
Proof.
  pose proof (update_flags SUPPORT_BRIGHTNESS SUPPORT_COLOR_TEMP SUPPORT_EFFECT
                SUPPORT_FLASH SUPPORT_COLOR SUPPORT_TRANSITION SUPPORT_WHITE_VALUE
                list_of_set hass self) as Hf.
  unfold _get_states_and_on_states in Hf. fold (states_of hass (_entity_ids self)) in Hf.
  destruct Hf as (_ & _ & -> & _). rewrite existsb_elem. split.
  - intros (st & Hin & Hs). apply bool_decide_eq_true in Hs.
    apply states_of_spec in Hin as (x & ? & ?). eauto.
  - intros (x & st & Hin & Hx & Hs). exists st. split.
    + apply states_of_spec. eauto.
    + by apply bool_decide_eq_true.
Qed.

(** X1.  After a recomputation, whether it raised or not, [_is_on] tells
    whether some member has a known state that is on. *)
Theorem update_is_on_iff hass self :
  _is_on (fst (update hass self)) = true ↔
  ∃ x st, x ∈ _entity_ids self ∧ states hass !! x = Some st ∧ state st = STATE_ON.
Proof. apply is_on_spec. Qed.

(** X2.  After a recomputation [_available] tells whether some member has
    a known state other than unavailable; a group none of whose members
    has a known state is unavailable. *)
Theorem update_available_iff hass self :
  (_available (fst (update hass self)) = true ↔
   ∃ x st, x ∈ _entity_ids self ∧ states hass !! x = Some st
           ∧ state st ≠ STATE_UNAVAILABLE)
  ∧ ((∀ x, x ∈ _entity_ids self → states hass !! x = None) →
     _available (fst (update hass self)) = false).
Proof.
  split; [apply available_spec|]. intros Hnone.
  apply not_true_is_false. intros E.
  apply available_spec in E as (x & st & Hin & Hx & _).
  rewrite (Hnone x Hin) in Hx. done.
Qed.

(** X3.  After a recomputation, whether it raised or not: if a main light
    is on the group is on, and if the group is on it is available. *)
Theorem update_flags_ordered hass self :
  constructed self →
  states_keyed hass →
  (_main_lights_on (fst (update hass self)) = true →
     _is_on (fst (update hass self)) = true)
  ∧ (_is_on (fst (update hass self)) = true →
       _available (fst (update hass self)) = true).
Proof.
  intros Hc Hk. split.
  - intros Hm. apply (main_lights_on_spec _ _ _ _ _ _ _ _ _ _ Hc Hk) in Hm
      as (x & st & Hin & Hx & Hs).
    apply is_on_spec. exists x, st. split; [|done]. rewrite Hc. set_solver.
  - intros Hon. apply is_on_spec in Hon as (x & st & Hin & Hx & Hs).
    apply available_spec. exists x, st.
    split; [done|]. split; [done|]. rewrite Hs. done.
Qed.

End Flags.

Lemma states_of_none hass ids :
  (∀ x, x ∈ ids → states hass !! x = None) → states_of hass ids = [].
Proof.
  induction ids as [|y r IH]; intros Hn; [done|].
  rewrite states_of_cons, (Hn y) by set_solver. apply IH. set_solver.
Qed.

Lemma existsb_none {A} (f : A → bool) (l : list A) :
  (∀ x, f x = false) → existsb f l = false.
Proof. intros Hf. induction l as [|x r IH]; [done|]. simpl. by rewrite Hf, IH. Qed.

Section Cache.

Context (SUPPORT_BRIGHTNESS SUPPORT_COLOR_TEMP SUPPORT_EFFECT SUPPORT_FLASH
  SUPPORT_COLOR SUPPORT_TRANSITION SUPPORT_WHITE_VALUE : Z).
Context (list_of_set : list pyval -> list pyval).

Local Abbreviation update :=
  (async_update SUPPORT_BRIGHTNESS SUPPORT_COLOR_TEMP SUPPORT_EFFECT SUPPORT_FLASH
     SUPPORT_COLOR SUPPORT_TRANSITION SUPPORT_WHITE_VALUE list_of_set).

Ltac step_method :=
  cbv [mbind method_bind exc_bind mret method_ret exc_ret eval assign read].

Lemma merge_supported_features_keeps_name supports self :
  _name (fst (merge_supported_features supports self)) = _name self.
Proof.
  revert self. induction supports as [|support r IH]; intros self; simpl; [done|].
  step_method. destruct (py_or (_supported_features self) support) as [v|e]; simpl; [|done].
  fold (merge_supported_features r).
  specialize (IH (set_supported_features v self)).
  destruct (merge_supported_features r (set_supported_features v self)) as [s' [[]|e]];
    simpl in *; exact IH.
Qed.

Lemma update_keeps_name hass self : _name (fst (update hass self)) = _name self.
Proof.
  unfold async_update.
  destruct (_get_states_and_on_states self hass) as [sts on_states].
  step_method.
  repeat match goal with
         | |- context [match _reduce_attribute ?a ?b ?c ?d with _ => _ end] =>
             destruct (_reduce_attribute a b c d); [|simpl; done]
         end.
  destruct (_find_state_attributes sts ATTR_EFFECT_LIST) as [|l1 ls].
  all: destruct (_find_state_attributes on_states ATTR_EFFECT) as [|e1 es].
  all: repeat match goal with
         | |- context [match set_union ?a ?b with _ => _ end] =>
             destruct (set_union a b); [|simpl; done]
         | |- context [match Counter ?a with _ => _ end] =>
             destruct (Counter a) as [c|]; [destruct (most_common_1 c) as [|[? ?] ?]|];
             try (simpl; done)
         end.
  all: match goal with
       | |- context [merge_supported_features ?l ?s] =>
           pose proof (merge_supported_features_keeps_name l s) as Hk;
           destruct (merge_supported_features l s) as [s' [[]|e]]
       end; simpl in *.
  all: try (destruct (py_and _ _); simpl).
  all: exact Hk.
Qed.

Lemma update_keeps_members hass self :
  _main_lights (fst (update hass self)) = _main_lights self
  ∧ _aux_lights (fst (update hass self)) = _aux_lights self
  ∧ _entity_ids (fst (update hass self)) = _entity_ids self.
Proof.
  pose proof (update_flags SUPPORT_BRIGHTNESS SUPPORT_COLOR_TEMP SUPPORT_EFFECT
                SUPPORT_FLASH SUPPORT_COLOR SUPPORT_TRANSITION SUPPORT_WHITE_VALUE
                list_of_set hass self) as Hf.
  destruct (_get_states_and_on_states self hass) as [sts on_states].
  by destruct Hf as (_ & _ & _ & Hm & Ha & Hi).
Qed.

(** X4.  A recomputation never changes the name or the membership of the
    group, whether it returns or raises; a well-formed group stays
    well-formed. *)
Theorem update_keeps_configuration hass self :
  let self' := fst (update hass self) in
  _name self' = _name self
  ∧ _main_lights self' = _main_lights self
  ∧ _aux_lights self' = _aux_lights self
  ∧ _entity_ids self' = _entity_ids self
  ∧ (constructed self → constructed self').
Proof.
  intros self'. destruct (update_keeps_members hass self) as (Hm & Ha & Hi).
  split; [apply update_keeps_name|]. split; [exact Hm|]. split; [exact Ha|].
  split; [exact Hi|]. unfold constructed. subst self'. by rewrite Hm, Ha, Hi.
Qed.

(** X5.  A recomputation that returns rebuilds the whole cache: its
    result depends on the name, the membership and the state machine, not
    on the values cached before.  In particular recomputing twice from the
    same states gives what recomputing once gives. *)
Theorem update_wholesale hass self1 self2 self' :
  _name self1 = _name self2 →
  _main_lights self1 = _main_lights self2 →
  _aux_lights self1 = _aux_lights self2 →
  _entity_ids self1 = _entity_ids self2 →
  async_update SUPPORT_BRIGHTNESS SUPPORT_COLOR_TEMP SUPPORT_EFFECT SUPPORT_FLASH
    SUPPORT_COLOR SUPPORT_TRANSITION SUPPORT_WHITE_VALUE list_of_set hass self1
    = (self', Ok tt) →
  async_update SUPPORT_BRIGHTNESS SUPPORT_COLOR_TEMP SUPPORT_EFFECT SUPPORT_FLASH
    SUPPORT_COLOR SUPPORT_TRANSITION SUPPORT_WHITE_VALUE list_of_set hass self2
    = (self', Ok tt)
  ∧ async_update SUPPORT_BRIGHTNESS SUPPORT_COLOR_TEMP SUPPORT_EFFECT SUPPORT_FLASH
    SUPPORT_COLOR SUPPORT_TRANSITION SUPPORT_WHITE_VALUE list_of_set hass self'
    = (self', Ok tt).
Proof.
  assert (Hgen : ∀ s1 s2 s', _name s1 = _name s2 → _main_lights s1 = _main_lights s2 →
            _aux_lights s1 = _aux_lights s2 → _entity_ids s1 = _entity_ids s2 →
            update hass s1 = (s', Ok tt) → update hass s2 = (s', Ok tt)).
  { intros s1 s2 s' Hn Hm Ha Hi Hu.
    pose proof (update_result _ _ _ _ _ _ _ _ _ _ _ Hu) as Hr.
    pose proof (update_flags SUPPORT_BRIGHTNESS SUPPORT_COLOR_TEMP SUPPORT_EFFECT
                  SUPPORT_FLASH SUPPORT_COLOR SUPPORT_TRANSITION SUPPORT_WHITE_VALUE
                  list_of_set hass s1) as Hf1.
    pose proof (update_flags SUPPORT_BRIGHTNESS SUPPORT_COLOR_TEMP SUPPORT_EFFECT
                  SUPPORT_FLASH SUPPORT_COLOR SUPPORT_TRANSITION SUPPORT_WHITE_VALUE
                  list_of_set hass s2) as Hf2.
    pose proof (update_keeps_name hass s1) as Hn1.
    pose proof (update_keeps_name hass s2) as Hn2.
    pose proof (update_total SUPPORT_BRIGHTNESS SUPPORT_COLOR_TEMP SUPPORT_EFFECT
                  SUPPORT_FLASH SUPPORT_COLOR SUPPORT_TRANSITION SUPPORT_WHITE_VALUE
                  list_of_set hass s2) as Ht.
    assert (Hs : _get_states_and_on_states s2 hass = _get_states_and_on_states s1 hass)
      by (unfold _get_states_and_on_states; by rewrite Hi).
    assert (Ht' : _get_turned_on_entities s2 hass = _get_turned_on_entities s1 hass)
      by (unfold _get_turned_on_entities; by rewrite Hs).
    rewrite Hs in Hf2, Ht. rewrite Ht', <- Hm in Hf2.
    destruct (_get_states_and_on_states s1 hass) as [sts on_states].
    destruct Hr as (R1 & R2 & R3 & R4 & R5 & R6 & R7 & R8 & R9).
    destruct (Ht _ _ _ _ _ _ _ _ _ R1 R2 R3 R4 R5 R6 R7 R8 R9) as (s2' & Hu2).
    pose proof (update_result _ _ _ _ _ _ _ _ _ _ _ Hu2) as Hr2.
    rewrite Hs in Hr2.
    destruct Hr2 as (Q1 & Q2 & Q3 & Q4 & Q5 & Q6 & Q7 & Q8 & Q9).
    rewrite Hu in Hf1, Hn1. rewrite Hu2 in Hf2, Hn2. cbn [fst] in *.
    destruct Hf1 as (F1 & F2 & F3 & F4 & F5 & F6).
    destruct Hf2 as (G1 & G2 & G3 & G4 & G5 & G6).
    rewrite Hu2. f_equal.
    destruct s2', s'.
    cbn [_name _main_lights _aux_lights _entity_ids _is_on _main_lights_on _available
         _brightness _hs_color _color_temp _min_mireds _max_mireds _white_value
         _effect_list _effect _supported_features] in *.
    clear Ht Hu Hu2 Hs Ht'.
    rewrite R1 in Q1. rewrite R2 in Q2. rewrite R3 in Q3. rewrite R4 in Q4.
    rewrite R5 in Q5. rewrite R6 in Q6. rewrite R7 in Q7. rewrite R8 in Q8.
    rewrite R9 in Q9.
    injection Q1 as <-. injection Q2 as <-. injection Q3 as <-. injection Q4 as <-.
    injection Q5 as <-. injection Q6 as <-. injection Q7 as <-. injection Q8 as <-.
    injection Q9 as <-.
    rewrite F1, F2, F3, F4, F5, F6, G1, G2, G3, G4, G5, G6, Hn1, Hn2, Hn, Ha, Hi.
    reflexivity. }
  intros Hn Hm Ha Hi Hu. split; [by apply (Hgen self1)|].
  pose proof (update_keeps_members hass self1) as Hk.
  pose proof (update_keeps_name hass self1) as K1.
  rewrite Hu in Hk, K1. cbn [fst] in Hk, K1. destruct Hk as (K2 & K3 & K4).
  apply (Hgen self1); auto.
Qed.

End Cache.

Section Defaults.

Context (SUPPORT_BRIGHTNESS SUPPORT_COLOR_TEMP SUPPORT_EFFECT SUPPORT_FLASH
  SUPPORT_COLOR SUPPORT_TRANSITION SUPPORT_WHITE_VALUE : Z).
Context (list_of_set : list pyval -> list pyval).

Local Abbreviation update :=
  (async_update SUPPORT_BRIGHTNESS SUPPORT_COLOR_TEMP SUPPORT_EFFECT SUPPORT_FLASH
     SUPPORT_COLOR SUPPORT_TRANSITION SUPPORT_WHITE_VALUE list_of_set).

(** X6.  When no member has a known state, a recomputation returns and
    leaves the group as [__init__] builds it: off, unavailable, mired
    bounds 154 and 500, no features, every other attribute [None],
    whatever was cached before. *)
Theorem update_all_absent hass self :
  constructed self →
  (∀ x, x ∈ _entity_ids self → states hass !! x = None) →
  update hass self =
    (__init__ (_name self) (_main_lights self) (_aux_lights self), Ok tt).
Proof.
  intros Hc Hnone.
  assert (Hs : _get_states_and_on_states self hass = ([], [])).
  { unfold _get_states_and_on_states. fold (states_of hass (_entity_ids self)).
    by rewrite states_of_none. }
  assert (Ht : _get_turned_on_entities self hass = []).
  { unfold _get_turned_on_entities. by rewrite Hs. }
  unfold async_update. rewrite Hs, Ht.
  cbv [mbind method_bind exc_bind mret method_ret exc_ret eval assign read].
  cbn [_reduce_attribute _find_state_attributes omap list_omap
       merge_supported_features mret method_ret].
  cbn [set_is_on set_main_lights_on set_available set_brightness set_hs_color
       set_white_value set_color_temp set_min_mireds set_max_mireds set_effect_list
       set_effect set_supported_features _supported_features py_and
       _name _main_lights _aux_lights _entity_ids].
  rewrite Z.land_0_l. unfold __init__. rewrite <- Hc.
  rewrite (existsb_none (fun main_light : string => bool_decide (main_light ∈ [])))
    by (intros x; apply bool_decide_eq_false_2; set_solver).
  reflexivity.
Qed.

(** X7.  When no member is on, a recomputation that returns leaves the
    group off and clears brightness, colour, white value, colour
    temperature and effect. *)
Theorem update_all_off hass self self' :
  (∀ x st, x ∈ _entity_ids self → states hass !! x = Some st → state st ≠ STATE_ON) →
  update hass self = (self', Ok tt) →
  _is_on self' = false
  ∧ _main_lights_on self' = false
  ∧ _brightness self' = VNone
  ∧ _hs_color self' = VNone
  ∧ _white_value self' = VNone
  ∧ _color_temp self' = VNone
  ∧ _effect self' = VNone.
Proof.
  intros Hoff Hu.
  assert (Hon : snd (_get_states_and_on_states self hass) = []).
  { destruct (snd (_get_states_and_on_states self hass)) as [|st r] eqn:E; [done|].
    assert (Hin : st ∈ snd (_get_states_and_on_states self hass))
      by (rewrite E; set_solver).
    apply on_states_spec in Hin as (x & Hx & Hs & Hst). by destruct (Hoff x st). }
  pose proof (update_result _ _ _ _ _ _ _ _ _ _ _ Hu) as Hr.
  pose proof (update_flags SUPPORT_BRIGHTNESS SUPPORT_COLOR_TEMP SUPPORT_EFFECT
                SUPPORT_FLASH SUPPORT_COLOR SUPPORT_TRANSITION SUPPORT_WHITE_VALUE
                list_of_set hass self) as Hf.
  rewrite Hu in Hf. cbn [fst] in Hf. unfold _get_turned_on_entities in Hf.
  destruct (_get_states_and_on_states self hass) as [sts on_states].
  cbn [snd] in Hon, Hf. subst on_states.
  destruct Hr as (R1 & R2 & R3 & R4 & _ & _ & _ & R8 & _).
  destruct Hf as (F1 & F2 & _).
  cbn in R1, R2, R3, R4, R8.
  split; [by rewrite F1|]. split.
  { rewrite F2. apply existsb_none. intros x. apply bool_decide_eq_false_2. set_solver. }
  repeat split; congruence.
Qed.

(** X8.  When the reduction of the brightness raises, the recomputation
    raises the same exception after writing the three flags only: every
    cached attribute keeps the value it had. *)
Theorem update_raise_keeps_attributes hass self e :
  _reduce_attribute (snd (_get_states_and_on_states self hass))
    ATTR_BRIGHTNESS VNone _mean_int = Raise e →
  let self' := fst (update hass self) in
  snd (update hass self) = Raise e
  ∧ _brightness self' = _brightness self
  ∧ _hs_color self' = _hs_color self
  ∧ _white_value self' = _white_value self
  ∧ _color_temp self' = _color_temp self
  ∧ _min_mireds self' = _min_mireds self
  ∧ _max_mireds self' = _max_mireds self
  ∧ _effect_list self' = _effect_list self
  ∧ _effect self' = _effect self
  ∧ _supported_features self' = _supported_features self.
Proof.
  intros Hb. unfold async_update.
  destruct (_get_states_and_on_states self hass) as [sts on_states]. cbn [snd] in Hb.
  cbv [mbind method_bind exc_bind mret method_ret exc_ret eval assign read].
  rewrite Hb. cbn. repeat split; reflexivity.
Qed.

End Defaults.

(** ** More on the reducers *)

Lemma Zsum_bounds zs lo hi :
  (∀ z, z ∈ zs → lo <= z <= hi) →
  Z.of_nat (length zs) * lo <= Zsum zs <= Z.of_nat (length zs) * hi.
Proof.
  induction zs as [|z r IH]; intros Hb; [simpl; lia|].
  specialize (IH ltac:(set_solver)). pose proof (Hb z ltac:(set_solver)).
  cbn [Zsum fold_right length] in *. fold (Zsum r). lia.
Qed.

Lemma quot_between s n lo hi :
  0 < n → n * lo <= s <= n * hi → lo <= s ÷ n <= hi.
Proof.
  intros Hn Hs. pose proof (Z.quot_rem' s n) as Hq.
  destruct (Z.le_gt_cases 0 s) as [Hpos|Hneg].
  - pose proof (Z.rem_bound_pos s n Hpos Hn). nia.
  - pose proof (Z.rem_bound_pos_neg s n Hn ltac:(lia)). nia.
Qed.

(** X9.  The reduced value of an integer attribute lies between the least
    and the greatest of the values reported (so a brightness stays in
    0..255 when every member's does); when all members report the same
    value, that value is the result. *)
Theorem reduce_mean_int_between sts key zs lo hi :
  _find_state_attributes sts key = VInt <$> zs →
  zs ≠ [] →
  (∀ z, z ∈ zs → lo <= z <= hi) →
  Z.abs (Zsum zs) < 2 ^ 53 →
  ∃ m, _reduce_attribute sts key VNone _mean_int = Ok (VInt m) ∧ lo <= m <= hi.
Proof.
  intros Hf Hne Hb Hs. destruct zs as [|z [|z' r]]; [done| |].
  - exists z. split; [by apply (reduce_attribute_one _ _ _ _ (VInt z))|].
    apply Hb. set_solver.
  - eexists. split.
    + rewrite (reduce_attribute_many _ _ _ _ _ Hf) by (simpl; lia).
      by apply mean_int_ints.
    + apply quot_between; [simpl; lia|]. by apply Zsum_bounds.
Qed.

Lemma fold_lor_perm masks masks' a :
  masks ≡ₚ masks' → fold_left Z.lor masks a = fold_left Z.lor masks' a.
Proof.
  intros H. revert a.
  induction H as [|z l l' H IH|x y l|l l' l'' H1 IH1 H2 IH2]; intros a; simpl.
  - done.
  - apply IH.
  - f_equal. rewrite <- !Z.lor_assoc. f_equal. apply Z.lor_comm.
  - by rewrite IH1.
Qed.

Lemma reduce_mean_int_perm sts sts' key zs :
  sts ≡ₚ sts' →
  _find_state_attributes sts key = VInt <$> zs →
  Z.abs (Zsum zs) < 2 ^ 53 →
  _reduce_attribute sts' key VNone _mean_int = _reduce_attribute sts key VNone _mean_int.
Proof.
  intros Hp Hf Hs.
  assert (Hf' : _find_state_attributes sts' key ≡ₚ VInt <$> zs).
  { rewrite <- Hf. unfold _find_state_attributes. by rewrite Hp. }
  apply perm_ints_inv in Hf' as (zs' & Hf' & Hpz).
  pose proof (Permutation_length Hpz) as Hlen.
  pose proof (Zsum_perm _ _ Hpz) as Hsum.
  destruct zs as [|z [|w r]].
  - apply Permutation_nil_r in Hpz as ->.
    by rewrite !(reduce_attribute_none _ _ _ _) by done.
  - apply Permutation_singleton_r in Hpz as ->.
    by rewrite (reduce_attribute_one _ _ _ _ _ Hf), (reduce_attribute_one _ _ _ _ _ Hf').
  - rewrite (reduce_attribute_many _ _ _ _ _ Hf) by (simpl; lia).
    rewrite (reduce_attribute_many _ _ _ _ _ Hf') by (rewrite length_fmap, Hlen; simpl; lia).
    rewrite !mean_int_ints; try done.
    + by rewrite Hsum, Hlen.
    + intros ->. simpl in Hlen. lia.
    + by rewrite Hsum.
Qed.

Lemma on_states_perm self1 self2 hass :
  _entity_ids self1 ≡ₚ _entity_ids self2 →
  fst (_get_states_and_on_states self1 hass) ≡ₚ fst (_get_states_and_on_states self2 hass)
  ∧ snd (_get_states_and_on_states self1 hass) ≡ₚ snd (_get_states_and_on_states self2 hass).
Proof.
  intros Hp. unfold _get_states_and_on_states; cbn [fst snd]. by rewrite Hp.
Qed.

(** X10.  The order in which the members are listed does not matter to the
    mean of an integer attribute, nor to the merged feature mask: two
    groups with the same members in another order (main and auxiliary
    lights exchanged, say) reduce them to the same values. *)
Theorem reduce_order_independent S1 S2 S3 S4 S5 S6 S7 hass self1 self2 :
  _entity_ids self1 ≡ₚ _entity_ids self2 →
  (∀ key zs,
     _find_state_attributes (snd (_get_states_and_on_states self1 hass)) key
       = VInt <$> zs →
     Z.abs (Zsum zs) < 2 ^ 53 →
     _reduce_attribute (snd (_get_states_and_on_states self2 hass)) key VNone _mean_int
     = _reduce_attribute (snd (_get_states_and_on_states self1 hass)) key VNone _mean_int)
  ∧ (∀ masks,
       _find_state_attributes (fst (_get_states_and_on_states self1 hass))
         ATTR_SUPPORTED_FEATURES = VInt <$> masks →
       supported_features_of S1 S2 S3 S4 S5 S6 S7
         (fst (_get_states_and_on_states self2 hass))
       = supported_features_of S1 S2 S3 S4 S5 S6 S7
           (fst (_get_states_and_on_states self1 hass))).
Proof.
  intros Hp. destruct (on_states_perm _ _ hass Hp) as [Hall Hon]. split.
  - intros key zs Hf Hs. by apply (reduce_mean_int_perm _ _ _ zs).
  - intros masks Hf.
    assert (Hf' : _find_state_attributes (fst (_get_states_and_on_states self2 hass))
                    ATTR_SUPPORTED_FEATURES ≡ₚ VInt <$> masks).
    { rewrite <- Hf. unfold _find_state_attributes. by rewrite Hall. }
    apply perm_ints_inv in Hf' as (masks' & Hf' & Hpm).
    unfold supported_features_of. rewrite Hf, Hf', !or_all_ints.
    by rewrite (fold_lor_perm _ _ _ Hpm).
Qed.

(** X11.  [_find_state_attributes] yields exactly the values that some
    state holds under the key and that are not [None]: a state that lacks
    the key and a state that holds [None] under it both contribute
    nothing, and [None] is never yielded. *)
Theorem find_state_attributes_spec sts key v :
  v ∈ _find_state_attributes sts key ↔
  v ≠ VNone ∧ ∃ st, st ∈ sts ∧ attributes st !! key = Some v.
Proof.
  unfold _find_state_attributes, attributes_get. rewrite list_elem_of_omap. split.
  - intros (st & Hin & Hv). destruct (attributes st !! key) as [w|] eqn:E; simpl in Hv;
      [|done].
    destruct w; simplify_eq; (split; [done|]); eauto.
  - intros (Hv & st & Hin & E). exists st. split; [done|]. rewrite E. simpl.
    by destruct v.
Qed.



(** ** More on the dispatcher *)

Lemma turned_on_sublist_ids hass ids :
  states_keyed hass →
  (entity_id <$> filter (fun st => state st = STATE_ON) (states_of hass ids))
    `sublist_of` ids.
Proof.
  intros Hk. induction ids as [|y r IH]; [done|].
  rewrite states_of_cons. destruct (states hass !! y) as [st|] eqn:E.
  - rewrite filter_cons. case_decide.
    + rewrite fmap_cons, (Hk _ _ E). by apply sublist_skip.
    + by apply sublist_cons.
  - by apply sublist_cons.
Qed.

Lemma turned_on_filter_ids hass ids :
  states_keyed hass →
  entity_id <$> filter (fun st => state st = STATE_ON) (states_of hass ids)
  = filter (fun x => is_on_in hass x = true) ids.
Proof.
  intros Hk. induction ids as [|y r IH]; [done|].
  rewrite states_of_cons, (filter_cons (fun x => is_on_in hass x = true)).
  assert (Hy : is_on_in hass y =
                 match states hass !! y with
                 | Some st => bool_decide (state st = STATE_ON)
                 | None => false
                 end) by reflexivity.
  destruct (states hass !! y) as [st|] eqn:E.
  - rewrite filter_cons. destruct (decide (state st = STATE_ON)) as [Hs|Hs].
    + rewrite bool_decide_eq_true_2 in Hy by done. rewrite (decide_True _ _ Hy).
      by rewrite fmap_cons, IH, (Hk _ _ E).
    + rewrite bool_decide_eq_false_2 in Hy by done.
      rewrite decide_False by (rewrite Hy; discriminate). exact IH.
  - rewrite decide_False by (rewrite Hy; discriminate). exact IH.
Qed.

Lemma count_str_filter (P : string → Prop) `{!∀ x, Decision (P x)} s l :
  count_str s (filter P l) = if decide (P s) then count_str s l else 0%nat.
Proof.
  unfold count_str. induction l as [|x r IH]; [by destruct (decide (P s))|].
  rewrite (filter_cons P). destruct (decide (P x)) as [Hx|Hx].
  - rewrite !(filter_cons (fun y => y = s)). destruct (decide (x = s)) as [->|Hne].
    + rewrite decide_True in IH by done. rewrite decide_True by done.
      simpl. by rewrite IH.
    + exact IH.
  - rewrite (filter_cons (fun y => y = s)). destruct (decide (x = s)) as [->|Hne].
    + rewrite decide_False in IH by done. by rewrite decide_False by done.
    + exact IH.
Qed.

(** X12.  [_get_turned_on_entities] returns the member list with the
    entities whose known state is on kept and all others removed: the
    members that are on, in the order in which they are listed, each as
    often as it is listed. *)
Theorem turned_on_entities_sublist self hass :
  states_keyed hass →
  _get_turned_on_entities self hass
    = filter (fun x => is_on_in hass x = true) (_entity_ids self)
  ∧ _get_turned_on_entities self hass `sublist_of` _entity_ids self
  ∧ ∀ x, count_str x (_get_turned_on_entities self hass)
         = if is_on_in hass x then count_str x (_entity_ids self) else 0%nat.
Proof.
  intros Hk.
  assert (E : _get_turned_on_entities self hass
              = filter (fun x => is_on_in hass x = true) (_entity_ids self)).
  { unfold _get_turned_on_entities, _get_states_and_on_states. cbn [snd].
    by apply turned_on_filter_ids. }
  split; [exact E|]. split.
  - unfold _get_turned_on_entities, _get_states_and_on_states. cbn [snd].
    by apply turned_on_sublist_ids.
  - intros x. rewrite E, count_str_filter. by destruct (is_on_in hass x).
Qed.

Lemma copy_key_from_kwargs key kwargs data k v :
  (data !! k = Some v → k = ATTR_ENTITY_ID ∨ kwargs !! k = Some v) →
  copy_key key kwargs data !! k = Some v →
  k = ATTR_ENTITY_ID ∨ kwargs !! k = Some v.
Proof.
  intros Hd. rewrite copy_key_lookup. case_decide as Hk; [subst k|done].
  destruct (kwargs !! key); [by right|done].
Qed.

(** X13.  Each of the three commands issues one blocking call to the light
    domain that names members of the group only, and every attribute the
    call carries besides the target comes unchanged from the caller's
    arguments. *)
Theorem dispatch_targets_members self kwargs hass verb :
  constructed self →
  states_keyed hass →
  verb ∈ [async_turn_on; async_turn_off; async_toggle] →
  ∃ srv data target,
    verb self kwargs hass = hass_services_async_call hass light_DOMAIN srv data true
    ∧ srv ∈ [light_SERVICE_TURN_ON; light_SERVICE_TURN_OFF]
    ∧ data !! ATTR_ENTITY_ID = Some (entity_list target)
    ∧ (∀ x, x ∈ target → x ∈ _entity_ids self)
    ∧ (∀ k v, k ≠ ATTR_ENTITY_ID → data !! k = Some v → kwargs !! k = Some v).
Proof.
  intros Hc Hk Hverb.
  assert (Hon : ∃ data target,
            async_turn_on self kwargs hass =
              hass_services_async_call hass light_DOMAIN light_SERVICE_TURN_ON data true
            ∧ data !! ATTR_ENTITY_ID = Some (entity_list target)
            ∧ (∀ x, x ∈ target → x ∈ _entity_ids self)
            ∧ (∀ k v, k ≠ ATTR_ENTITY_ID → data !! k = Some v → kwargs !! k = Some v)).
  { unfold async_turn_on.
    assert (Hfw : ∀ t k v, k ≠ ATTR_ENTITY_ID →
              <[ATTR_ENTITY_ID := t]> (turn_on_data kwargs) !! k = Some v →
              kwargs !! k = Some v).
    { intros t k v Hne. rewrite lookup_insert_ne by done. rewrite turn_on_data_lookup.
      by case_decide. }
    destruct (negb (_is_on self) || bool_decide (size (turn_on_data kwargs) = 0%nat)).
    - eexists _, (_main_lights self). split; [reflexivity|].
      split; [by rewrite lookup_insert|]. split; [|apply Hfw].
      intros x Hx. rewrite Hc. set_solver.
    - eexists _, (_get_turned_on_entities self hass). split; [reflexivity|].
      split; [by rewrite lookup_insert|]. split; [|apply Hfw].
      intros x Hx. by apply (turned_on_entities_spec _ _ _ Hk) in Hx as [? _]. }
  assert (Hoff : ∃ data target,
            async_turn_off self kwargs hass =
              hass_services_async_call hass light_DOMAIN light_SERVICE_TURN_OFF data true
            ∧ data !! ATTR_ENTITY_ID = Some (entity_list target)
            ∧ (∀ x, x ∈ target → x ∈ _entity_ids self)
            ∧ (∀ k v, k ≠ ATTR_ENTITY_ID → data !! k = Some v → kwargs !! k = Some v)).
  { unfold async_turn_off. eexists _, (_entity_ids self). split; [reflexivity|].
    split; [|split; [done|]].
    - rewrite copy_key_lookup. case_decide as E; [discriminate E|].
      by rewrite lookup_singleton.
    - intros k v Hne Hd. apply copy_key_from_kwargs in Hd as [?|?]; [done|done|].
      rewrite lookup_singleton_ne by done. done. }
  destruct Hon as (d1 & t1 & E1 & H1). destruct Hoff as (d2 & t2 & E2 & H2).
  apply elem_of_cons in Hverb as [->|Hverb];
    [|apply elem_of_cons in Hverb as [->|Hverb];
      [|apply list_elem_of_singleton in Hverb as ->]].
  - exists light_SERVICE_TURN_ON, d1, t1. split; [done|]. split; [set_solver|done].
  - exists light_SERVICE_TURN_OFF, d2, t2. split; [done|]. split; [set_solver|done].
  - unfold async_toggle. destruct (_main_lights_on self).
    + exists light_SERVICE_TURN_OFF, d2, t2. split; [done|]. split; [set_solver|done].
    + exists light_SERVICE_TURN_ON, d1, t1. split; [done|]. split; [set_solver|done].
Qed.

(** X14.  Until the first recomputation the group takes itself for off:
    [async_turn_on] and [async_toggle] on a group as [__init__] builds it
    target the main lights, whatever the arguments and whatever the states
    of the members. *)
Theorem fresh_group_commands_main_lights name main_lights aux_lights kwargs hass :
  let self := __init__ name main_lights aux_lights in
  async_turn_on self kwargs hass =
    hass_services_async_call hass light_DOMAIN light_SERVICE_TURN_ON
      (<[ATTR_ENTITY_ID := entity_list main_lights]> (turn_on_data kwargs)) true
  ∧ async_toggle self kwargs hass = async_turn_on self kwargs hass.
Proof. split; reflexivity. Qed.

Section Composition.

Context (SUPPORT_BRIGHTNESS SUPPORT_COLOR_TEMP SUPPORT_EFFECT SUPPORT_FLASH
  SUPPORT_COLOR SUPPORT_TRANSITION SUPPORT_WHITE_VALUE : Z).
Context (list_of_set : list pyval -> list pyval).

Local Abbreviation update :=
  (async_update SUPPORT_BRIGHTNESS SUPPORT_COLOR_TEMP SUPPORT_EFFECT SUPPORT_FLASH
     SUPPORT_COLOR SUPPORT_TRANSITION SUPPORT_WHITE_VALUE list_of_set).


(** X16.  A recomputation followed by [async_turn_on] with an attribute to
    forward, on the same states: when some member is on, the call targets
    the members that are on and no other, so it lights no member that is
    off; when none is on, it targets the main lights. *)
Theorem turn_on_after_update hass self kwargs :
  states_keyed hass →
  turn_on_data kwargs ≠ ∅ →
  ∃ target,
    async_turn_on (fst (update hass self)) kwargs hass =
      hass_services_async_call hass light_DOMAIN light_SERVICE_TURN_ON
        (<[ATTR_ENTITY_ID := entity_list target]> (turn_on_data kwargs)) true
    ∧ ((∃ x st, x ∈ _entity_ids self ∧ states hass !! x = Some st
                ∧ state st = STATE_ON) →
       target ≠ []
       ∧ ∀ x, x ∈ target ↔
              x ∈ _entity_ids self
              ∧ ∃ st, states hass !! x = Some st ∧ state st = STATE_ON)
    ∧ ((¬ ∃ x st, x ∈ _entity_ids self ∧ states hass !! x = Some st
                  ∧ state st = STATE_ON) →
       target = _main_lights self).
Proof.
  intros Hk Hdata.
  destruct (update_keeps_members SUPPORT_BRIGHTNESS SUPPORT_COLOR_TEMP SUPPORT_EFFECT
              SUPPORT_FLASH SUPPORT_COLOR SUPPORT_TRANSITION SUPPORT_WHITE_VALUE
              list_of_set hass self) as (Hm & _ & Hi).
  pose proof (is_on_spec SUPPORT_BRIGHTNESS SUPPORT_COLOR_TEMP SUPPORT_EFFECT
                SUPPORT_FLASH SUPPORT_COLOR SUPPORT_TRANSITION SUPPORT_WHITE_VALUE
                list_of_set hass self) as Hon.
  assert (Hsz : bool_decide (size (turn_on_data kwargs) = 0%nat) = false).
  { apply bool_decide_eq_false_2. intros E. by apply map_size_empty_inv in E. }
  assert (Ht : _get_turned_on_entities (fst (update hass self)) hass
               = _get_turned_on_entities self hass).
  { unfold _get_turned_on_entities, _get_states_and_on_states. by rewrite Hi. }
  unfold async_turn_on. rewrite Hsz, Ht, Hm, orb_false_r.
  destruct (_is_on (fst (update hass self))) eqn:E; cbn [negb].
  - exists (_get_turned_on_entities self hass). split; [reflexivity|]. split.
    + intros _. split; [|intros x; by apply turned_on_entities_spec].
      destruct (proj1 Hon eq_refl) as (x & st & Hin & Hx & Hs).
      assert (Hx' : x ∈ _get_turned_on_entities self hass)
        by (apply turned_on_entities_spec; eauto).
      intros Hnil. rewrite Hnil in Hx'. by apply elem_of_nil in Hx'.
    + intros Hno. destruct Hno. by apply Hon.
  - exists (_main_lights self). split; [reflexivity|]. split; [|done].
    intros Hex. apply Hon in Hex. discriminate Hex.
Qed.

End Composition.

(** ** Registration with Home Assistant *)

Section Lifecycle.

Context (SUPPORT_BRIGHTNESS SUPPORT_COLOR_TEMP SUPPORT_EFFECT SUPPORT_FLASH
  SUPPORT_COLOR SUPPORT_TRANSITION SUPPORT_WHITE_VALUE : Z).
Context (list_of_set : list pyval -> list pyval).

Local Abbreviation update :=
  (async_update SUPPORT_BRIGHTNESS SUPPORT_COLOR_TEMP SUPPORT_EFFECT SUPPORT_FLASH
     SUPPORT_COLOR SUPPORT_TRANSITION SUPPORT_WHITE_VALUE list_of_set).

Local Abbreviation added :=
  (async_added_to_hass SUPPORT_BRIGHTNESS SUPPORT_COLOR_TEMP SUPPORT_EFFECT SUPPORT_FLASH
     SUPPORT_COLOR SUPPORT_TRANSITION SUPPORT_WHITE_VALUE list_of_set).

(** X17.  [async_will_remove_from_hass] calls the stored callable at most
    once: it calls it and forgets it, so that a second removal, or the
    removal of a group that was never added, calls nothing.  The group's
    cached state is not touched. *)
Theorem will_remove_idempotent calls self :
  let '(self1, calls1) := async_will_remove_from_hass calls self in
  async_will_remove_from_hass calls1 self1 = (self1, calls1)
  ∧ _async_unsub_state_changed self1 = None
  ∧ group self1 = group self
  ∧ calls1 = (calls ++ match _async_unsub_state_changed self with
                       | Some unsub => [Unsubscribe unsub]
                       | None => []
                       end)%list.
Proof.
  unfold async_will_remove_from_hass.
  destruct self as [g [unsub|]]; cbn [_async_unsub_state_changed group].
  - done.
  - by rewrite app_nil_r.
Qed.

(** X18.  [async_added_to_hass] registers one listener, for exactly the
    members of the group, and stores its callable before it recomputes the
    state: also when the recomputation raises, a later removal calls that
    callable, once, and nothing else. *)
Theorem added_then_removed hass calls self :
  let '(self1, calls1, r) := added hass calls self in
  calls1 = (calls ++ [Track (_entity_ids (group self))])%list
  ∧ _async_unsub_state_changed self1 = Some (length calls)
  ∧ (group self1, r) = update hass (group self)
  ∧ async_will_remove_from_hass calls1 self1 =
      ({| group := group self1; _async_unsub_state_changed := None |},
       (calls ++ [Track (_entity_ids (group self)); Unsubscribe (length calls)])%list).
Proof.
  unfold async_added_to_hass, async_track_state_change, async_will_remove_from_hass.
  cbn [group _async_unsub_state_changed].
  destruct (update hass (group self)) as [g r].
  cbn [group _async_unsub_state_changed].
  repeat split. by rewrite <- app_assoc.
Qed.

End Lifecycle.

(** ** The shape of the reduced values *)

Lemma exc_bind_ok {A B} (m : exc A) (f : A → exc B) b :
  m ≫= f = Ok b → ∃ a, m = Ok a ∧ f a = Ok b.
Proof. destruct m as [a|e]; [eauto|done]. Qed.

(** X19.  Two or more values of an attribute reduced by the mean give an
    int whenever the reduction returns, whatever their types (floats
    included): only a single value passes through with its own type. *)
Theorem reduce_mean_int_result_type sts key v :
  (2 <= length (_find_state_attributes sts key))%nat →
  _reduce_attribute sts key VNone _mean_int = Ok v →
  ∃ z, v = VInt z.
Proof.
  intros Hlen. rewrite (reduce_attribute_many _ _ _ _ _ eq_refl Hlen).
  unfold _mean_int. intros H.
  apply exc_bind_ok in H as (s & _ & H). apply exc_bind_ok in H as (q & _ & H).
  apply exc_bind_ok in H as (z & _ & H). injection H as <-. eauto.
Qed.

Lemma min_from_zero ks : fold_right Nat.min 0%nat ks = 0%nat.
Proof. induction ks as [|k r IH]; simpl; [done|]. rewrite IH. apply Nat.min_0_r. Qed.

Lemma heads_none others n :
  heads others = None → fold_right Nat.min n (length <$> others) = 0%nat.
Proof.
  induction others as [|[|x r] its IH]; intros H.
  - done.
  - rewrite fmap_cons. apply Nat.min_0_l.
  - cbn [heads] in H. destruct (heads its) as [[hs tls]|]; [done|].
    rewrite fmap_cons. cbn [fold_right]. rewrite IH by done. apply Nat.min_0_r.
Qed.

Lemma heads_some others hs tls n :
  heads others = Some (hs, tls) →
  fold_right Nat.min (S n) (length <$> others)
  = S (fold_right Nat.min n (length <$> tls)).
Proof.
  revert hs tls. induction others as [|[|x r] its IH]; intros hs tls H.
  - by injection H as <- <-.
  - done.
  - cbn [heads] in H. destruct (heads its) as [[hs' tls']|] eqn:E; [|done].
    injection H as <- <-. rewrite !fmap_cons. cbn [fold_right length].
    rewrite (IH _ _ eq_refl). reflexivity.
Qed.

Lemma zip_lists_length first others :
  length (zip_lists first others) = shortest first others.
Proof.
  unfold shortest. revert others. induction first as [|x r IH]; intros others; simpl.
  - by rewrite min_from_zero.
  - destruct (heads others) as [[hs tls]|] eqn:E.
    + simpl. by rewrite IH, (heads_some _ _ _ _ E).
    + by rewrite heads_none.
Qed.

Lemma exc_map_tuples (ls : list (list pyval)) :
  exc_map py_iter (VTuple <$> ls) = Ok ls.
Proof.
  induction ls as [|l r IH]; [done|].
  cbn [fmap list_fmap exc_map py_iter] in *. cbv [mbind exc_bind] in *.
  change (list_fmap _ _ VTuple r) with (VTuple <$> r). by rewrite IH.
Qed.

Lemma exc_map_column_mean cols ms :
  exc_map column_mean cols = Ok ms →
  length ms = length cols ∧ ∀ m, m ∈ ms → ∃ f, m = VFloat f.
Proof.
  revert ms. induction cols as [|c r IH]; intros ms; simpl.
  - intros [= <-]. split; [done|]. intros m Hm. by apply elem_of_nil in Hm.
  - intros H. apply exc_bind_ok in H as (y & Hy & H).
    apply exc_bind_ok in H as (ys & Hys & H). injection H as <-.
    destruct (IH _ Hys) as [Hl Hf]. split; [simpl; by rewrite Hl|].
    intros m Hm. apply elem_of_cons in Hm as [->|Hm]; [|by apply Hf].
    unfold column_mean in Hy. apply exc_bind_ok in Hy as (s & _ & Hy).
    apply exc_bind_ok in Hy as (q & _ & Hy). injection Hy as <-. eauto.
Qed.

(** X20.  The mean of colours given as tuples, when it returns, is a tuple
    of floats with as many components as the shortest colour has: [zip]
    stops at the shortest argument, so the components beyond are
    dropped. *)
Theorem mean_tuple_shape first others v :
  _mean_tuple (VTuple <$> first :: others) = Ok v →
  ∃ ms, v = VTuple ms
        ∧ length ms = shortest first others
        ∧ ∀ m, m ∈ ms → ∃ f, m = VFloat f.
Proof.
  unfold _mean_tuple, py_zip. rewrite exc_map_tuples.
  cbv [mbind exc_bind]. intros H.
  destruct (exc_map column_mean (zip_lists first others)) as [ms|e] eqn:E; [|done].
  injection H as <-. exists ms. split; [done|].
  destruct (exc_map_column_mean _ _ E) as [Hl Hf].
  split; [by rewrite Hl, zip_lists_length|exact Hf].
Qed.

Lemma reduce_mean_int_result_type_witness :
  (2 <= length (_find_state_attributes
                  (snd (_get_states_and_on_states living_room_group living_room))
                  ATTR_BRIGHTNESS))%nat
  ∧ ∃ z, _brightness living_room_updated = VInt z.
Proof.
  assert (Hlen : (2 <= length (_find_state_attributes
                    (snd (_get_states_and_on_states living_room_group living_room))
                    ATTR_BRIGHTNESS))%nat) by (vm_compute; lia).
  split; [exact Hlen|].
  apply (reduce_mean_int_result_type _ _ _ Hlen). vm_compute; reflexivity.
Defined.

Lemma mean_tuple_shape_witness :
  _mean_tuple (VTuple <$> [VFloat f10; VFloat f20; VFloat f20] :: [[VFloat f20; VFloat f20]])
    = Ok (VTuple [VFloat (S754_finite false 8444249301319680 (-49)); VFloat f20])
  ∧ ∃ ms, VTuple [VFloat (S754_finite false 8444249301319680 (-49)); VFloat f20] = VTuple ms
          ∧ length ms = 2%nat.
Proof.
  assert (H : _mean_tuple
                (VTuple <$> [VFloat f10; VFloat f20; VFloat f20] :: [[VFloat f20; VFloat f20]])
              = Ok (VTuple [VFloat (S754_finite false 8444249301319680 (-49)); VFloat f20]))
    by (vm_compute; reflexivity).
  split; [exact H|].
  destruct (mean_tuple_shape _ _ _ H) as (ms & H1 & H2 & _).
  exists ms. split; [exact H1 | exact H2].
Defined.

(** ** Further instances on the sample installations *)

Lemma update_flags_ordered_witness :
  constructed living_room_group
  ∧ states_keyed living_room
  ∧ _is_on living_room_updated = true
  ∧ _available living_room_updated = true.
Proof.
  split; [reflexivity|]. split; [apply hass_of_keyed|].
  split; [vm_compute; reflexivity|].
  apply (proj2 (update_flags_ordered 1 2 4 8 16 32 128 (fun s => s)
                  living_room living_room_group eq_refl (hass_of_keyed _))).
  vm_compute; reflexivity.
Defined.

Lemma update_wholesale_witness :
  async_update 1 2 4 8 16 32 128 (fun s => s) living_room living_room_group
    = (living_room_updated, Ok tt)
  ∧ async_update 1 2 4 8 16 32 128 (fun s => s) living_room living_room_updated
    = (living_room_updated, Ok tt).
Proof.
  assert (Hu : async_update 1 2 4 8 16 32 128 (fun s => s) living_room living_room_group
               = (living_room_updated, Ok tt)) by (vm_compute; reflexivity).
  split; [exact Hu|].
  exact (proj2 (update_wholesale 1 2 4 8 16 32 128 (fun s => s)
                  living_room living_room_group living_room_group living_room_updated
                  eq_refl eq_refl eq_refl eq_refl Hu)).
Defined.

Lemma no_states_lookup x : states no_states !! x = None.
Proof. apply lookup_empty. Qed.

Lemma update_all_absent_witness :
  constructed living_room_updated
  ∧ (∀ x, x ∈ _entity_ids living_room_updated → states no_states !! x = None)
  ∧ async_update 1 2 4 8 16 32 128 (fun s => s) no_states living_room_updated
    = (living_room_group, Ok tt).
Proof.
  split; [reflexivity|]. split; [intros x _; apply no_states_lookup|].
  exact (update_all_absent 1 2 4 8 16 32 128 (fun s => s) no_states living_room_updated
           eq_refl (fun x _ => no_states_lookup x)).
Defined.

Lemma attic_all_off x st :
  x ∈ _entity_ids attic_group → states attic !! x = Some st → state st ≠ STATE_ON.
Proof.
  intros Hin Hx.
  assert (E1 : states attic !! "light.attic" = Some attic_lamp_off)
    by (vm_compute; reflexivity).
  assert (E2 : states attic !! "light.attic_spare" = Some attic_spare_unavailable)
    by (vm_compute; reflexivity).
  change (x ∈ ["light.attic"; "light.attic_spare"]) in Hin.
  apply elem_of_cons in Hin as [->|Hin];
    [|apply list_elem_of_singleton in Hin as ->].
  - rewrite E1 in Hx. injection Hx as <-. discriminate.
  - rewrite E2 in Hx. injection Hx as <-. discriminate.
Qed.

Lemma update_all_off_witness :
  (∀ x st, x ∈ _entity_ids attic_group → states attic !! x = Some st →
           state st ≠ STATE_ON)
  ∧ _is_on (fst (async_update 1 2 4 8 16 32 128 (fun s => s) attic attic_group)) = false
  ∧ _brightness (fst (async_update 1 2 4 8 16 32 128 (fun s => s) attic attic_group))
    = VNone.
Proof.
  split; [exact attic_all_off|].
  assert (Hu : async_update 1 2 4 8 16 32 128 (fun s => s) attic attic_group
               = (fst (async_update 1 2 4 8 16 32 128 (fun s => s) attic attic_group),
                  Ok tt)) by (vm_compute; reflexivity).
  destruct (update_all_off 1 2 4 8 16 32 128 (fun s => s) attic attic_group _
              attic_all_off Hu) as (H1 & _ & H3 & _).
  split; [exact H1 | exact H3].
Defined.

Lemma update_raise_keeps_attributes_witness :
  _reduce_attribute (snd (_get_states_and_on_states kitchen_group kitchen))
    ATTR_BRIGHTNESS VNone _mean_int = Raise TypeError
  ∧ snd (async_update 1 2 4 8 16 32 128 (fun s => s) kitchen kitchen_group)
    = Raise TypeError
  ∧ _min_mireds (fst (async_update 1 2 4 8 16 32 128 (fun s => s) kitchen kitchen_group))
    = _min_mireds kitchen_group.
Proof.
  assert (Hb : _reduce_attribute (snd (_get_states_and_on_states kitchen_group kitchen))
                 ATTR_BRIGHTNESS VNone _mean_int = Raise TypeError)
    by (vm_compute; reflexivity).
  split; [exact Hb|].
  destruct (update_raise_keeps_attributes 1 2 4 8 16 32 128 (fun s => s)
              kitchen kitchen_group TypeError Hb) as (H1 & _ & _ & _ & _ & H6 & _).
  split; [exact H1 | exact H6].
Defined.

Lemma reduce_mean_int_between_witness :
  _find_state_attributes (snd (_get_states_and_on_states living_room_group living_room))
    ATTR_BRIGHTNESS = VInt <$> [100; 101]
  ∧ ∃ m, _reduce_attribute (snd (_get_states_and_on_states living_room_group living_room))
           ATTR_BRIGHTNESS VNone _mean_int = Ok (VInt m)
         ∧ 100 <= m <= 101.
Proof.
  assert (Hf : _find_state_attributes
                 (snd (_get_states_and_on_states living_room_group living_room))
                 ATTR_BRIGHTNESS = VInt <$> [100; 101]) by (vm_compute; reflexivity).
  split; [exact Hf|].
  apply (reduce_mean_int_between _ _ [100; 101] 100 101 Hf).
  - discriminate.
  - intros z Hz. apply elem_of_cons in Hz as [->|Hz];
      [|apply list_elem_of_singleton in Hz as ->]; lia.
  - vm_compute; reflexivity.
Defined.

Lemma living_room_regrouped_perm :
  _entity_ids living_room_group ≡ₚ _entity_ids living_room_regrouped.
Proof.
  change (["light.ceiling"; "light.spot"; "light.floor"]
            ≡ₚ reverse ["light.ceiling"; "light.spot"; "light.floor"]).
  symmetry. apply reverse_Permutation.
Qed.

Lemma reduce_order_independent_witness :
  _entity_ids living_room_group ≡ₚ _entity_ids living_room_regrouped
  ∧ _reduce_attribute (snd (_get_states_and_on_states living_room_regrouped living_room))
      ATTR_BRIGHTNESS VNone _mean_int = Ok (VInt 100).
Proof.
  split; [exact living_room_regrouped_perm|].
  rewrite (proj1 (reduce_order_independent 1 2 4 8 16 32 128 living_room
                    living_room_group living_room_regrouped living_room_regrouped_perm)
             ATTR_BRIGHTNESS [100; 101]).
  - vm_compute; reflexivity.
  - vm_compute; reflexivity.
  - vm_compute; reflexivity.
Defined.

Lemma turned_on_entities_sublist_witness :
  states_keyed study
  ∧ _get_turned_on_entities study_group study
    = ["light.desk"; "light.desk"; "light.shelf"]
  ∧ count_str "light.desk" (_get_turned_on_entities study_group study) = 2%nat.
Proof.
  split; [apply hass_of_keyed|].
  destruct (turned_on_entities_sublist study_group study (hass_of_keyed _))
    as (H1 & _ & H3).
  split.
  - rewrite H1. vm_compute; reflexivity.
  - rewrite (H3 "light.desk"). vm_compute; reflexivity.
Defined.

Lemma dispatch_targets_members_witness :
  constructed living_room_updated
  ∧ states_keyed living_room
  ∧ ∃ srv data target,
      async_toggle living_room_updated {[ATTR_BRIGHTNESS := VInt 10]} living_room =
        hass_services_async_call living_room light_DOMAIN srv data true
      ∧ data !! ATTR_ENTITY_ID = Some (entity_list target)
      ∧ ∀ x, x ∈ target → x ∈ _entity_ids living_room_updated.
Proof.
  split; [reflexivity|]. split; [apply hass_of_keyed|].
  destruct (dispatch_targets_members living_room_updated {[ATTR_BRIGHTNESS := VInt 10]}
              living_room async_toggle eq_refl (hass_of_keyed _))
    as (srv & data & target & H1 & _ & H3 & H4 & _).
  - apply elem_of_cons. right. apply elem_of_cons. right. apply list_elem_of_singleton.
    reflexivity.
  - exists srv, data, target. split; [exact H1|]. split; [exact H3 | exact H4].
Defined.


Lemma brightness_payload_nonempty :
  turn_on_data {[ATTR_BRIGHTNESS := VInt 10]} ≠ ∅.
Proof.
  intros E. apply (f_equal (fun m => m !! ATTR_BRIGHTNESS)) in E.
  rewrite turn_on_data_lookup, lookup_empty in E.
  rewrite decide_True in E by (unfold forwarded_keys; set_solver).
  rewrite lookup_singleton in E. discriminate E.
Qed.

Lemma turn_on_after_update_witness :
  states_keyed living_room
  ∧ turn_on_data {[ATTR_BRIGHTNESS := VInt 10]} ≠ ∅
  ∧ ∃ target,
      async_turn_on living_room_updated {[ATTR_BRIGHTNESS := VInt 10]} living_room =
        hass_services_async_call living_room light_DOMAIN light_SERVICE_TURN_ON
          (<[ATTR_ENTITY_ID := entity_list target]>
             (turn_on_data {[ATTR_BRIGHTNESS := VInt 10]})) true.
Proof.
  split; [apply hass_of_keyed|]. split; [exact brightness_payload_nonempty|].
  destruct (turn_on_after_update 1 2 4 8 16 32 128 (fun s => s) living_room
              living_room_group {[ATTR_BRIGHTNESS := VInt 10]} (hass_of_keyed _)
              brightness_payload_nonempty) as (target & H1 & _).
  exists target. exact H1.
Defined.
